(** * University rankings dashboard: the reconciliation and filtering core

    A shallow embedding of the data pipeline of [ranking.py]: the common
    institution set, the per-agency extras, the row filters, the rank-range
    parser, the KPI lookup and the latest-year computations, followed by the
    properties the specification states about them. *)

From Stdlib Require Import ZArith NArith Lia List Ascii String DecimalString DecimalPos.
From stdpp Require Import prelude gmap sorting.

(** ** Python values used by the script *)

(** A Python [str] is a sequence of Unicode code points. *)
Abbreviation pystr := (list N).

(** An ASCII literal of the script, as a [str]. *)
Definition lit (s : string) : pystr := N_of_ascii <$> list_ascii_of_string s.

Definition HYPHEN : N := 45.       (* "-"  U+002D *)
Definition EN_DASH : N := 8211.    (* "–"  U+2013 *)
Definition EM_DASH : N := 8212.    (* "—"  U+2014 *)

(** Exceptions the modelled code can raise, and computations that may raise. *)
Inductive exn := ValueError | KeyError | IndexError.

Inductive result (A : Type) :=
  | Ok (a : A)
  | Raise (e : exn).
Arguments Ok {A} a.
Arguments Raise {A} e.

#[global] Instance result_ret : MRet result := λ A, Ok.

#[global] Instance result_bind : MBind result := λ A B k m,
  match m with
  | Ok a => k a
  | Raise e => Raise e
  end.

(** ** The interpreter's [int(str)]

    The Unicode character database and the digit limit belong to the
    interpreter, not to the script; they are parameters of the model. *)
Class PyRuntime := {
  (** [Py_UNICODE_ISSPACE] *)
  unicode_isspace : N → bool;
  (** [Py_UNICODE_TODECIMAL]: the value of a decimal digit; [None] where
      CPython answers -1 *)
  unicode_todecimal : N → option N;
  (** [sys.get_int_max_str_digits()]; 0 disables the limit *)
  int_max_str_digits : N
}.

(** [Py_ISSPACE] of the C locale, used once the text is ASCII. *)
Definition is_ascii_space (c : N) : bool :=
  ((9 <=? c) && (c <=? 13) || (c =? 32))%N.

Definition is_ascii_digit (c : N) : bool := ((48 <=? c) && (c <=? 57))%N.

Definition UNDERSCORE : N := 95.
Definition PLUS : N := 43.
Definition QUESTION : N := 63.

(** The characters [PyLong_FromString] can accept in base 10. *)
Definition int_char (c : N) : bool :=
  is_ascii_space c || is_ascii_digit c
  || (c =? UNDERSCORE)%N || (c =? PLUS)%N || (c =? HYPHEN)%N.

(** How often a code point occurs in a [str]. *)
Definition occurrences (c : N) (s : pystr) : nat :=
  length (filter (λ x, x = c) s).

(** [sys.int_info.str_digits_check_threshold] *)
Definition str_digits_check_threshold : nat := 640.

Section Int.
Context `{PyRuntime}.

(** [_PyUnicode_TransformDecimalAndSpaceToASCII]: white space becomes a
    blank, a decimal digit of any script its ASCII digit; the copy stops
    with a question mark at the first code point that is neither. *)
Fixpoint transform_decimal_and_space (s : pystr) : pystr :=
  match s with
  | [] => []
  | c :: r =>
      if (c <? 127)%N then c :: transform_decimal_and_space r
      else if unicode_isspace c then 32%N :: transform_decimal_and_space r
      else match unicode_todecimal c with
           | Some d => (48 + d)%N :: transform_decimal_and_space r
           | None => [QUESTION]
           end
  end.

(** An ASCII-only [str] is handed over as it is. *)
Definition ascii_buffer (s : pystr) : pystr :=
  if forallb (λ c, (c <? 128)%N) s then s else transform_decimal_and_space s.

(** The digit loop of [long_from_string_base]: it consumes digits and
    underscores, refuses two underscores in a row and a trailing one, and
    counts the digits. [prev] tells whether the last consumed character
    was an underscore. *)
Fixpoint scan_digits (prev : bool) (acc : N) (digits : nat) (a : pystr)
  : result (N * nat * pystr) :=
  match a with
  | c :: r =>
      if is_ascii_digit c then scan_digits false (10 * acc + (c - 48))%N (S digits) r
      else if (c =? UNDERSCORE)%N then
        if prev then Raise ValueError else scan_digits true acc digits r
      else if prev then Raise ValueError else Ok (acc, digits, a)
  | [] => if prev then Raise ValueError else Ok (acc, digits, [])
  end.

Definition exceeds_digit_limit (digits : nat) : bool :=
  (str_digits_check_threshold <? digits)%nat
  && (0 <? int_max_str_digits)%N
  && (int_max_str_digits <? N.of_nat digits)%N.

(** Leading white space is skipped. *)
Fixpoint skip_spaces (a : pystr) : pystr :=
  match a with
  | c :: r => if is_ascii_space c then skip_spaces r else a
  | [] => []
  end.

(** [PyLong_FromString] in base 10, on the ASCII buffer. *)
Definition long_from_string (a : pystr) : result Z :=
  let a := skip_spaces a in
  let '(negative, a) :=
    match a with
    | c :: r => if (c =? PLUS)%N then (false, r)
                else if (c =? HYPHEN)%N then (true, r)
                else (false, a)
    | [] => (false, a)
    end in
  match a with
  | c :: _ => if (c =? UNDERSCORE)%N then Raise ValueError else
      scanned ← scan_digits false 0%N 0%nat a;
      let '(magnitude, digits, rest) := scanned in
      if (digits =? 0)%nat then Raise ValueError
      else if exceeds_digit_limit digits then Raise ValueError
      else if forallb is_ascii_space rest
           then Ok (if negative then (- Z.of_N magnitude)%Z else Z.of_N magnitude)
           else Raise ValueError
  | [] => Raise ValueError
  end.

(** [int(s)] for a [str] argument. *)
Definition py_int (s : pystr) : result Z := long_from_string (ascii_buffer s).

(** Code points of a [str] that [int] can accept. *)
Definition int_codepoint (c : N) : bool :=
  if (c <? 127)%N then int_char c
  else unicode_isspace c || bool_decide (is_Some (unicode_todecimal c)).

(** U+2013 is punctuation (general category Pd) in the Unicode database:
    neither white space nor a decimal digit. *)
Definition en_dash_is_punctuation : Prop :=
  unicode_isspace EN_DASH = false ∧ unicode_todecimal EN_DASH = None.

End Int.

(** ** String methods used by the parser *)

(** [s.replace(old, new)] for one-character [old] and [new]. *)
Definition replace (old new : N) (s : pystr) : pystr :=
  (λ c, if (c =? old)%N then new else c) <$> s.

(** [s.split(sep)] for a one-character separator. *)
Fixpoint split (sep : N) (s : pystr) : list pystr :=
  match s with
  | [] => [[]]
  | c :: r =>
      if (c =? sep)%N then [] :: split sep r
      else match split sep r with
           | p :: ps => (c :: p) :: ps
           | [] => [[c]]
           end
  end.

(** ** Rank ranges (Overview tab) *)

(** A rank range [(low, high, mid)]; [None] is Python's [None]. *)
Abbreviation rank_range := (option Z * option Z * option Z)%type.

Section Parse.
Context `{PyRuntime}.

(** The body of the [try] of [parse_rank_range]. *)
Definition parse_rank_range_try (rank_str : pystr) : result (Z * Z * Z) :=
  let parts := split HYPHEN (replace EN_DASH HYPHEN rank_str) in
  match parts with
  | [p0; p1] =>
      low ← py_int p0;
      high ← py_int p1;
      Ok (low, high, ((low + high) `div` 2)%Z)
  | _ =>
      val ← py_int rank_str;
      Ok (val, val, val)
  end.

(** [parse_rank_range]: the bare [except] turns every exception into the
    all-[None] triple. *)
Definition parse_rank_range (rank_str : pystr) : rank_range :=
  match parse_rank_range_try rank_str with
  | Ok (low, high, mid) => (Some low, Some high, Some mid)
  | Raise _ => (None, None, None)
  end.

End Parse.

(** One admissible interpreter: the white space of CPython's database, the
    digits of three scripts, and the default digit limit. *)
Definition sample_isspace (c : N) : bool :=
  ((c =? 133) || (c =? 160) || (c =? 5760) || (8192 <=? c) && (c <=? 8202)
   || (c =? 8232) || (c =? 8233) || (c =? 8239) || (c =? 8287) || (c =? 12288))%N.

Definition sample_todecimal (c : N) : option N :=
  if ((1632 <=? c) && (c <=? 1641))%N then Some (c - 1632)%N
  else if ((2406 <=? c) && (c <=? 2415))%N then Some (c - 2406)%N
  else if ((65296 <=? c) && (c <=? 65305))%N then Some (c - 65296)%N
  else None.

Definition sample_runtime : PyRuntime :=
  {| unicode_isspace := sample_isspace;
     unicode_todecimal := sample_todecimal;
     int_max_str_digits := 4300 |}.

(** ** Tables *)

(** A scalar of a table cell. [pd.notna] rejects [PyNone] and [NaN]. A
    scalar that is neither a [str] nor an [int] (a float, a bool, a
    timestamp) is seen by this script only through [str()], and is carried
    as that rendering. *)
Inductive cell :=
  | PyNone
  | NaN
  | Str (s : pystr)
  | Int (z : Z)
  | Other (repr : pystr).

Definition notna (c : cell) : bool :=
  match c with
  | PyNone | NaN => false
  | _ => true
  end.

(** A row after the common data preparation: [Year] is an [int] and
    [IPEDS_Name] a [str]; the other columns are read from [cells], where a
    column the row has no entry for reads as [NaN] (as [pd.concat] fills
    it). *)
Record Row := {
  IPEDS_Name : pystr;
  Year : Z;
  cells : gmap pystr cell
}.

(** A table: the labels of its other columns, and its rows in order. *)
Record DataFrame := {
  columns : list pystr;
  rows : list Row
}.

Definition IPEDS_NAME : pystr := lit "IPEDS_Name".
Definition YEAR : pystr := lit "Year".
Definition NEW_JERSEY_UNIVERSITY : pystr := lit "New_Jersey_University".
Definition LOW : pystr := lit "low".
Definition HIGH : pystr := lit "high".
Definition MID : pystr := lit "mid".
Definition NJIT_NAME : pystr := lit "New Jersey Institute of Technology".
Definition N_A : pystr := lit "N/A".

Definition has_column (df : DataFrame) (c : pystr) : bool :=
  bool_decide (c ∈ IPEDS_NAME :: YEAR :: columns df).

(** The value of column [c] in row [r]. *)
Definition cell_at (r : Row) (c : pystr) : cell :=
  if decide (c = IPEDS_NAME) then Str (IPEDS_Name r)
  else if decide (c = YEAR) then Int (Year r)
  else default NaN (cells r !! c).

(** [df[c]]: the values of a column, [KeyError] for an unknown label. *)
Definition column (df : DataFrame) (c : pystr) : result (list cell) :=
  if has_column df c then Ok ((λ r, cell_at r c) <$> rows df) else Raise KeyError.

(** [df[mask]] for a row-wise mask: the rows the mask keeps, in order. *)
Definition select (P : Row → Prop) `{∀ r, Decision (P r)} (df : DataFrame) : DataFrame :=
  {| columns := columns df; rows := filter P (rows df) |}.

(** [df[c] = values], row by row. *)
Definition set_cell (c : pystr) (v : cell) (r : Row) : Row :=
  {| IPEDS_Name := IPEDS_Name r; Year := Year r; cells := <[c := v]> (cells r) |}.

(** [df["IPEDS_Name"]] and [df["Year"]]. *)
Definition names (df : DataFrame) : list pystr := IPEDS_Name <$> rows df.
Definition years (df : DataFrame) : list Z := Year <$> rows df.

(** [Series.unique()]: the distinct values in order of first appearance. *)
Fixpoint unique_from `{EqDecision A} (seen : list A) (l : list A) : list A :=
  match l with
  | [] => []
  | x :: r => if decide (x ∈ seen) then unique_from seen r
              else x :: unique_from (x :: seen) r
  end.

Definition unique `{EqDecision A} (l : list A) : list A := unique_from [] l.

(** ** Institution reconciler *)

(** [get_common_universities] *)
Definition get_common_universities (times_df qs_df usn_df washington_df : DataFrame)
  : gset pystr :=
  list_to_set (names times_df) ∩ list_to_set (names qs_df)
  ∩ list_to_set (names usn_df) ∩ list_to_set (names washington_df).

(** Python orders [str] values by code point, lexicographically. *)
Fixpoint str_leb (s t : pystr) : bool :=
  match s, t with
  | [], _ => true
  | _ :: _, [] => false
  | a :: s', b :: t' =>
      if (a <? b)%N then true
      else if (a =? b)%N then str_leb s' t' else false
  end.

Definition str_le (s t : pystr) : Prop := str_leb s t = true.

#[global] Instance str_le_dec : RelDecision str_le.
Proof. intros s t. unfold str_le. apply _. Defined.

(** [sorted(...)] on a list of [str]. The order is total and antisymmetric,
    so the sorted list does not depend on the sorting algorithm. *)
Definition sorted (l : list pystr) : list pystr := merge_sort str_le l.

(** The extras of one agency (lines 76-79), for any common set and anchor. *)
Definition extras (df : DataFrame) (common_universities : gset pystr) (anchor : pystr)
  : list pystr :=
  sorted (filter (λ u, (u ∉ common_universities) ∧ (u ≠ anchor)) (unique (names df))).

Definition extra_times_unis (times_df : DataFrame) (common_universities : gset pystr)
  : list pystr :=
  extras times_df common_universities NJIT_NAME.

(** ** Selection and filter engine *)

(** [series == text], element by element: only a [str] cell can be equal. *)
Definition cell_is (c : cell) (text : pystr) : Prop := c = Str text.

#[global] Instance cell_eq_dec : EqDecision cell.
Proof. solve_decision. Defined.

#[global] Instance cell_is_dec c text : Decision (cell_is c text).
Proof. unfold cell_is. apply _. Defined.

(** [get_filtered_combined_df] *)
Definition get_filtered_combined_df (combined_df : DataFrame)
    (common_universities : gset pystr) (nj_filter : pystr) : result DataFrame :=
  let combined_common_df :=
    select (λ r, IPEDS_Name r ∈ common_universities) combined_df in
  if decide (nj_filter = lit "Yes") then
    _flags ← column combined_common_df NEW_JERSEY_UNIVERSITY;
    Ok (select (λ r, cell_is (cell_at r NEW_JERSEY_UNIVERSITY) (lit "Yes"))
          combined_common_df)
  else if decide (nj_filter = lit "No") then
    _flags ← column combined_common_df NEW_JERSEY_UNIVERSITY;
    Ok (select (λ r, cell_is (cell_at r NEW_JERSEY_UNIVERSITY) (lit "No"))
          combined_common_df)
  else Ok combined_common_df.

(** The global filter of one agency's table (lines 82-100 and the tabs):
    [df[df["Year"].isin(selected_years) & df["IPEDS_Name"].isin(unis)]]. *)
Definition filter_years_names (df : DataFrame) (selected_years : list Z)
    (unis : list pystr) : DataFrame :=
  select (λ r, Year r ∈ selected_years ∧ IPEDS_Name r ∈ unis) df.

Definition times_filtered (times_df : DataFrame) (selected_years : list Z)
    (global_selected_uni : pystr) : DataFrame :=
  filter_years_names times_df selected_years [NJIT_NAME; global_selected_uni].

(** ** Metric lookup *)

(** The body of the [try] of [get_metric_value]. *)
Definition get_metric_value_try (df : DataFrame) (university col : pystr)
  : result cell :=
  vals ← column (select (λ r, IPEDS_Name r = university) df) col;
  match vals with
  | val :: _ => Ok (if notna val then val else Str N_A)
  | [] => Raise IndexError
  end.

(** [get_metric_value] *)
Definition get_metric_value (df : DataFrame) (university col : pystr) : cell :=
  match get_metric_value_try df university col with
  | Ok v => v
  | Raise _ => Str N_A
  end.

(** ** Latest year *)

(** [max(values, default=None)] *)
Definition py_max (values : list Z) : option Z :=
  match values with
  | [] => None
  | x :: r => Some (foldl Z.max x r)
  end.

(** Overview tab (lines 203-208): the latest year of a filtered table. *)
Definition latest_years (filtered : DataFrame) : option Z :=
  py_max (unique (years filtered)).

(** Agency tabs (line 387 and its siblings). *)
Definition latest_times_year (selected_years : list Z) (filtered : DataFrame)
  : option Z :=
  py_max (filter (λ y, y ∈ unique (years filtered)) selected_years).

(** ** Rank-range tables *)

(** [str(n)] for an [int]. *)
Definition str_of_int (z : Z) : pystr :=
  lit (DecimalString.NilEmpty.string_of_int (Z.to_int z)).

(** [str(r)] for a cell. *)
Definition py_str (c : cell) : pystr :=
  match c with
  | PyNone => lit "None"
  | NaN => lit "nan"
  | Str s => s
  | Int z => str_of_int z
  | Other repr => repr
  end.

(** How the three assigned columns keep their values is pandas's dtype
    inference, not the script's: an [int64] column while every row has a
    range, a [float64] or [object] column once a row has none. It is a
    parameter of the model: the cell that holds [z] in the column [label] of
    a block of parsed ranges, and whether that column keeps Python's [None]
    (an [object] column) or turns it into [nan] (a [float64] column). *)
Class PandasRuntime := {
  store_int : list rank_range → pystr → Z → cell;
  keeps_none : list rank_range → pystr → bool
}.

(** Assigning to a column keeps an existing label and appends a new one. *)
Definition add_column (labels : list pystr) (c : pystr) : list pystr :=
  if decide (c ∈ labels) then labels else labels ++ [c].

Section RankRanges.
Context `{PyRuntime} `{PandasRuntime}.

(** The cell of one component of a range in the assigned column [label]:
    a number is stored as the column's dtype has it, Python's [None] stays
    [None] or becomes [nan]; either is a missing value of the column. *)
Definition cell_of (parsed : list rank_range) (label : pystr) (o : option Z) : cell :=
  match o with
  | Some z => store_int parsed label z
  | None => if keeps_none parsed label then PyNone else NaN
  end.

(** The three cells a row receives from [parse_rank_range], in a table whose
    rows parse to [parsed]. *)
Definition attach_range (parsed : list rank_range) (metric_col : pystr) (r : Row) : Row :=
  let '(low, high, mid) := parse_rank_range (py_str (cell_at r metric_col)) in
  set_cell MID (cell_of parsed MID mid)
    (set_cell HIGH (cell_of parsed HIGH high)
       (set_cell LOW (cell_of parsed LOW low) r)).

(** [build_rank_range_df]. On a table that the first mask leaves without
    rows, [apply] returns an empty [Series] instead of a three-column table,
    and assigning it to the three columns raises [ValueError]. *)
Definition build_rank_range_df (df : DataFrame) (metric_col : pystr)
  : result DataFrame :=
  _metric ← column df metric_col;
  let df := select (λ r, notna (cell_at r metric_col) = true) df in
  let parsed := (λ r, parse_rank_range (py_str (cell_at r metric_col))) <$> rows df in
  match parsed with
  | [] => Raise ValueError
  | _ :: _ =>
      let df := {| columns := foldl add_column (columns df) [LOW; HIGH; MID];
                   rows := attach_range parsed metric_col <$> rows df |} in
      Ok (select (λ r, notna (cell_at r MID) = true) df)
  end.

(** The assigned columns hold no missing value where a number was parsed. *)
Definition stored_numbers_present : Prop :=
  ∀ parsed label z, notna (store_int parsed label z) = true.

End RankRanges.

(** A storage for the examples, for numbers below 2^53: [int64] cells while
    every row has a range; once a row has none, [float64] cells, which [str]
    renders with a trailing ".0", and [nan] for [None]. *)
Definition sample_store_int (parsed : list rank_range) (label : pystr) (z : Z) : cell :=
  if forallb (λ rr : rank_range, bool_decide (is_Some rr.2)) parsed
  then Int z
  else Other (str_of_int z ++ lit ".0").

Definition sample_pandas : PandasRuntime :=
  {| store_int := sample_store_int; keeps_none := λ _ _, false |}.

(** ** The specification's reading of the operations *)

Definition no_range : rank_range := (None, None, None).

Section ParseSpec.
Context `{PyRuntime}.

(** The rank normaliser as the specification words it: unify the dash,
    split on the hyphen; two parts give [(low, high, mid)] with the
    midpoint by truncating division; otherwise a single token is read as
    one integer; a failed reading gives the all-null triple. *)
Definition single_rank (parsed : result Z) : rank_range :=
  match parsed with
  | Ok v => (Some v, Some v, Some v)
  | Raise _ => no_range
  end.

Definition parse_rank (raw : pystr) : rank_range :=
  match split HYPHEN (replace EN_DASH HYPHEN raw) with
  | [first; second] =>
      match py_int first, py_int second with
      | Ok low, Ok high => (Some low, Some high, Some ((low + high) `quot` 2)%Z)
      | _, _ => no_range
      end
  | [token] => single_rank (py_int token)
  | _ => single_rank (py_int raw)
  end.

(** Code points a rank text may hold: those [int] accepts and the en-dash. *)
Definition numeric_codepoint (c : N) : bool :=
  int_codepoint c || (c =? EN_DASH)%N.

End ParseSpec.

(** The region filter of the specification, and the sidebar choice that
    selects it. *)
Inductive region_filter := All | InRegionOnly | OutOfRegionOnly.

Definition nj_filter_of (f : region_filter) : pystr :=
  match f with
  | All => lit "All"
  | InRegionOnly => lit "Yes"
  | OutOfRegionOnly => lit "No"
  end.

Definition region_matches (f : region_filter) (r : Row) : Prop :=
  match f with
  | All => True
  | InRegionOnly => cell_at r NEW_JERSEY_UNIVERSITY = Str (lit "Yes")
  | OutOfRegionOnly => cell_at r NEW_JERSEY_UNIVERSITY = Str (lit "No")
  end.

#[global] Instance region_matches_dec f r : Decision (region_matches f r).
Proof. destruct f; simpl; apply _. Defined.

(** [filter_combined]: the rows of a common institution that match the
    region filter, in one pass. *)
Definition filter_combined (all_records : DataFrame) (common_set : gset pystr)
    (f : region_filter) : DataFrame :=
  select (λ r, IPEDS_Name r ∈ common_set ∧ region_matches f r) all_records.

(** Tables of the scenarios of the specification. *)
Definition row_of (name : string) (year : Z) (values : list (string * cell)) : Row :=
  {| IPEDS_Name := lit name; Year := year;
     cells := list_to_map ((λ kv, (lit kv.1, kv.2)) <$> values) |}.

Definition table_of (labels : list string) (rs : list Row) : DataFrame :=
  {| columns := lit <$> labels; rows := rs |}.

Definition empty_table : DataFrame := table_of [] [].

Definition table_ABC : DataFrame :=
  table_of [] [row_of "A" 2023 []; row_of "B" 2023 []; row_of "C" 2023 []].

Definition table_AB : DataFrame :=
  table_of [] [row_of "A" 2023 []; row_of "B" 2024 []].

(** [get_metric]: the value of the metric in the first row of the
    institution, or the sentinel when there is no such row, no such column,
    or no value. *)
Definition first_row (subset : DataFrame) (institution_id : pystr) : option Row :=
  head (filter (λ r, IPEDS_Name r = institution_id) (rows subset)).

Definition get_metric (subset : DataFrame) (institution_id metric_name : pystr) : cell :=
  match first_row subset institution_id with
  | Some r =>
      if has_column subset metric_name && notna (cell_at r metric_name)
      then cell_at r metric_name
      else Str N_A
  | None => Str N_A
  end.

(** [answer] is the latest period of [subset] among [allowed_periods]: the
    maximum of the periods that are both in the subset and allowed, and null
    when there is none. *)
Definition is_latest_period (subset : DataFrame) (allowed_periods : list Z)
    (answer : option Z) : Prop :=
  match answer with
  | Some m =>
      m ∈ years subset ∧ m ∈ allowed_periods
      ∧ ∀ y, y ∈ years subset → y ∈ allowed_periods → (y ≤ m)%Z
  | None => ∀ y, y ∈ years subset → y ∉ allowed_periods
  end.

Section RankSpec.
Context `{PyRuntime}.

Definition rank_mid (rr : rank_range) : option Z := rr.2.

(** A row survives when its metric is not missing and its rank has a
    midpoint. *)
Definition resolved (metric_column : pystr) (r : Row) : Prop :=
  notna (cell_at r metric_column) = true
  ∧ is_Some (rank_mid (parse_rank (py_str (cell_at r metric_column)))).

#[global] Instance resolved_dec metric_column r : Decision (resolved metric_column r).
Proof. unfold resolved. apply _. Defined.

End RankSpec.

(** The parsed ranges of the rows that have a metric: the block the three
    columns are assigned from. *)
Definition parsed_ranges `{PyRuntime} (df : DataFrame) (metric_col : pystr)
  : list rank_range :=
  (λ r, parse_rank_range (py_str (cell_at r metric_col)))
    <$> filter (λ r, notna (cell_at r metric_col) = true) (rows df).

(** A table the year selection has left without rows. *)
Definition no_rows_scenario : DataFrame := table_of ["X"%string] [].

(** Scenario 9 of the specification: a range, a plain integer, a dash and a
    missing value in metric "X". *)
Definition rank_scenario : DataFrame :=
  table_of ["X"%string]
    [row_of "A" 2021 [("X"%string, Str (lit "501-600"))];
     row_of "A" 2022 [("X"%string, Str (lit "45"))];
     row_of "A" 2023 [("X"%string, Str [EM_DASH])];
     row_of "A" 2024 [("X"%string, PyNone)]].

(** A combined table with a region flag, for the regional filter. *)
Definition region_scenario : DataFrame :=
  table_of ["New_Jersey_University"%string]
    [row_of "A" 2023 [("New_Jersey_University"%string, Str (lit "Yes"))];
     row_of "B" 2023 [("New_Jersey_University"%string, Str (lit "No"))];
     row_of "C" 2023 [("New_Jersey_University"%string, Str (lit "Yes"))];
     row_of "A" 2024 []].

(** ** The rest of the script's data flow *)

(** [sorted(...)] on a list of [int]. *)
Definition sorted_ints (l : list Z) : list Z := merge_sort Z.le l.

(** The sidebar's [years] (lines 51-58): the union of the four tables'
    years, as a sorted list. The order in which the [set] is listed does
    not matter, since the list is sorted. *)
Definition sidebar_years (times_df qs_df usn_df washington_df : DataFrame) : list Z :=
  sorted_ints (elements
    ((list_to_set (unique (years times_df)) : gset Z)
     ∪ list_to_set (unique (years qs_df))
     ∪ list_to_set (unique (years usn_df))
     ∪ list_to_set (unique (years washington_df)))).

(** [pd.concat(frames, ignore_index=True)]: the rows of one table after the
    other; the labels of all tables, each once, in order of first
    appearance. *)
Definition pd_concat (frames : list DataFrame) : DataFrame :=
  {| columns := unique (mjoin (columns <$> frames));
     rows := mjoin (rows <$> frames) |}.

(** [combined_df] (line 64) *)
Definition combined_df (times_df qs_df usn_df washington_df : DataFrame) : DataFrame :=
  pd_concat [times_df; qs_df; usn_df; washington_df].

(** [common_universities_filtered] (line 70): the options of the global
    selection box. *)
Definition common_universities_filtered (combined_common_df : DataFrame) : list pystr :=
  sorted (filter (λ u, u ≠ NJIT_NAME) (unique (names combined_common_df))).

Definition GLOBAL_SELECTED : pystr := lit "Global Selected University".

(** The options of a tab's selection box (line 371). *)
Definition tab_options (extra_unis : list pystr) : list pystr :=
  GLOBAL_SELECTED :: extra_unis.

(** [final_times_uni] (line 378) and its siblings. *)
Definition final_times_uni (global_selected_uni times_selected_uni : pystr) : pystr :=
  if decide (times_selected_uni = GLOBAL_SELECTED) then global_selected_uni
  else times_selected_uni.

(** [df[df["Year"] == year]]; no row compares equal to [None]. *)
Definition rows_of_year (df : DataFrame) (year : option Z) : DataFrame :=
  select (λ r, year = Some (Year r)) df.

(** A KPI of an agency tab (lines 387-388 and 408-409): the metric of a
    university in the rows of the latest year. *)
Definition tab_kpi (selected_years : list Z) (filtered : DataFrame)
    (university col : pystr) : cell :=
  let latest_times_year := latest_times_year selected_years filtered in
  let kpi_row := rows_of_year filtered latest_times_year in
  get_metric_value kpi_row university col.

(** A KPI of the Overview tab (lines 219-221). *)
Definition overview_kpi (filtered : DataFrame) (university metric : pystr) : cell :=
  let year := latest_years filtered in
  get_metric_value (rows_of_year filtered year) university metric.

(** [range(0, stop, step)] for a positive [step]. *)
Definition range_step (stop step : nat) : list nat :=
  (λ k, k * step)%nat <$> seq 0 ((stop + step - 1) `div` step)%nat.

(** The KPI grid (lines 402-405 and its siblings): for each [i] of
    [range(0, n, 4)], the indices [i + j] with [j] in [range(4)] that are
    below [n]. *)
Definition kpi_grid (n : nat) : list (list nat) :=
  (λ i, filter (λ k, k < n)%nat ((λ j, i + j)%nat <$> seq 0 4)) <$> range_step n 4.

Definition EQUALS : N := 61.

(** The facet title (line 503): the text after the last "=", or nothing
    when there is no "=". *)
Definition facet_title (text : pystr) : pystr :=
  if decide (EQUALS ∈ text) then default [] (last (split EQUALS text)) else [].

(* ================================================================== *)
(** * Properties *)

(** ** Facts about [int(str)] *)

Lemma occurrences_cons c x s :
  occurrences c (x :: s) = if decide (x = c) then S (occurrences c s) else occurrences c s.
Proof. unfold occurrences. rewrite filter_cons. by destruct (decide (x = c)). Qed.

Lemma occurrences_app c s t :
  occurrences c (s ++ t) = (occurrences c s + occurrences c t)%nat.
Proof. unfold occurrences. by rewrite filter_app, length_app. Qed.

Lemma occurrences_0 c s : c ∉ s → occurrences c s = 0%nat.
Proof.
  induction s as [|x s IH]; [done|].
  rewrite not_elem_of_cons, occurrences_cons. intros [? ?].
  destruct (decide (x = c)); [congruence | auto].
Qed.

Lemma occurrences_pos c s : c ∈ s → (0 < occurrences c s)%nat.
Proof.
  induction s as [|x s IH]; [by rewrite elem_of_nil|].
  rewrite elem_of_cons, occurrences_cons. intros [-> | Hin].
  - rewrite decide_True by done. lia.
  - destruct (decide (x = c)); [lia | auto].
Qed.

Lemma occurrences_Forall c (P : N → Prop) s :
  Forall P s → ¬ P c → occurrences c s = 0%nat.
Proof.
  intros Hall Hc. apply occurrences_0. intros Hin.
  rewrite Forall_forall in Hall. auto.
Qed.

Lemma int_char_ascii c : int_char c = true → (c < 96)%N.
Proof.
  unfold int_char, is_ascii_space, is_ascii_digit, UNDERSCORE, PLUS, HYPHEN.
  rewrite !orb_true_iff, !andb_true_iff, !N.leb_le, !N.eqb_eq. lia.
Qed.

Section IntFacts.
Context `{PyRuntime}.

Lemma skip_spaces_split a :
  ∃ ws, a = ws ++ skip_spaces a ∧ Forall (λ c, is_ascii_space c = true) ws.
Proof.
  induction a as [|c r (ws & E & Hws)]; simpl.
  - by exists [].
  - destruct (is_ascii_space c) eqn:Hc.
    + exists (c :: ws). split; [by rewrite E at 1 | by constructor].
    + by exists [].
Qed.

Lemma scan_digits_split prev acc n a m d rest :
  scan_digits prev acc n a = Ok (m, d, rest) →
  ∃ run, a = run ++ rest
         ∧ Forall (λ c, is_ascii_digit c = true ∨ c = UNDERSCORE) run.
Proof.
  revert prev acc n. induction a as [|c r IH]; intros prev acc n; simpl.
  - destruct prev; [done|]. intros [= <- <- <-]. by exists [].
  - destruct (is_ascii_digit c) eqn:Hd.
    { intros (run & -> & Hrun)%IH. exists (c :: run). split; [done|].
      constructor; auto. }
    destruct (c =? UNDERSCORE)%N eqn:Hu.
    { destruct prev; [done|]. apply N.eqb_eq in Hu as ->.
      intros (run & -> & Hrun)%IH. exists (UNDERSCORE :: run). split; [done|].
      constructor; auto. }
    destruct prev; [done|]. intros [= <- <- <-]. by exists [].
Qed.

(** The shape of an accepted literal: blanks, an optional sign, digits
    with underscores, blanks. Only a hyphen sign makes it negative. *)
Lemma long_from_string_shape a v :
  long_from_string a = Ok v →
  ∃ ws sg run ws',
    a = ws ++ sg ++ run ++ ws'
    ∧ Forall (λ c, is_ascii_space c = true) ws
    ∧ Forall (λ c, is_ascii_digit c = true ∨ c = UNDERSCORE) run
    ∧ Forall (λ c, is_ascii_space c = true) ws'
    ∧ ((sg = [] ∨ sg = [PLUS]) ∧ (0 ≤ v)%Z ∨ sg = [HYPHEN]).
Proof.
  unfold long_from_string.
  destruct (skip_spaces_split a) as (ws & Ea & Hws).
  destruct (skip_spaces a) as [|c r]; [done|].
  set (body := if (c =? PLUS)%N then (false, r)
               else if (c =? HYPHEN)%N then (true, r) else (false, c :: r)).
  assert (∃ sg, c :: r = sg ++ body.2
            ∧ ((sg = [] ∨ sg = [PLUS]) ∧ body.1 = false ∨ sg = [HYPHEN]))
    as (sg & Esg & Hsg).
  { subst body. destruct (c =? PLUS)%N eqn:Hp.
    - apply N.eqb_eq in Hp as ->. exists [PLUS]. naive_solver.
    - destruct (c =? HYPHEN)%N eqn:Hh.
      + apply N.eqb_eq in Hh as ->. exists [HYPHEN]. naive_solver.
      + exists []. naive_solver. }
  destruct body as [negative b]; simpl in *.
  destruct b as [|c' r']; [done|].
  destruct (c' =? UNDERSCORE)%N; [done|].
  destruct (scan_digits false 0%N 0%nat (c' :: r')) as [[[m d] rest]|] eqn:Hscan;
    [|done].
  simpl. destruct (d =? 0)%nat; [done|].
  destruct (exceeds_digit_limit d); [done|].
  destruct (forallb is_ascii_space rest) eqn:Hrest; [|done].
  intros [= <-].
  apply scan_digits_split in Hscan as (run & Erun & Hrun).
  exists ws, sg, run, rest. split_and!; try done.
  - by rewrite Ea, Esg, Erun.
  - apply Forall_forall. intros x Hx.
    rewrite forallb_forall in Hrest. apply Hrest. by apply list_elem_of_In.
  - destruct Hsg as [[Hsg ->]|Hsg]; [left; split; [done|lia] | by right].
Qed.

Lemma long_from_string_chars a v :
  long_from_string a = Ok v → Forall (λ c, int_char c = true) a.
Proof.
  intros (ws & sg & run & ws' & -> & Hws & Hrun & Hws' & Hsg)%long_from_string_shape.
  unfold int_char. rewrite !Forall_app. split_and!.
  - eapply Forall_impl; [exact Hws|]. by intros c ->.
  - destruct Hsg as [[[-> | ->] _] | ->]; repeat constructor.
  - eapply Forall_impl; [exact Hrun|]. intros c [-> | ->]; [|done].
    by rewrite orb_true_r.
  - eapply Forall_impl; [exact Hws'|]. by intros c ->.
Qed.

Lemma long_from_string_nonneg a v :
  long_from_string a = Ok v → HYPHEN ∉ a → (0 ≤ v)%Z.
Proof.
  intros (ws & sg & run & ws' & -> & _ & _ & _ & Hsg)%long_from_string_shape Hno.
  destruct Hsg as [[_ ?] | ->]; [done|].
  exfalso. apply Hno. set_solver.
Qed.

Lemma long_from_string_hyphens a v :
  long_from_string a = Ok v → (occurrences HYPHEN a ≤ 1)%nat.
Proof.
  intros (ws & sg & run & ws' & -> & Hws & Hrun & Hws' & Hsg)%long_from_string_shape.
  rewrite !occurrences_app.
  rewrite (occurrences_Forall _ _ _ Hws), (occurrences_Forall _ _ _ Hrun),
    (occurrences_Forall _ _ _ Hws'); [|done| by intros [?|?] |done].
  destruct Hsg as [[[-> | ->] _] | ->]; vm_compute; lia.
Qed.

Lemma transform_chars s :
  Forall (λ c, int_char c = true) (transform_decimal_and_space s) →
  Forall (λ c, int_codepoint c = true) s.
Proof.
  induction s as [|c r IH]; simpl; [done|].
  destruct (c <? 127)%N eqn:Hc.
  { intros [? ?]%Forall_cons. constructor; [|auto].
    unfold int_codepoint. by rewrite Hc. }
  destruct (unicode_isspace c) eqn:Hs.
  { intros [? ?]%Forall_cons. constructor; [|auto].
    unfold int_codepoint. by rewrite Hc, Hs. }
  destruct (unicode_todecimal c) eqn:Hd.
  { intros [? ?]%Forall_cons. constructor; [|auto].
    unfold int_codepoint. by rewrite Hc, Hs, Hd. }
  by intros [? ?]%Forall_cons.
Qed.

Lemma transform_hyphens s :
  Forall (λ c, int_char c = true) (transform_decimal_and_space s) →
  occurrences HYPHEN (transform_decimal_and_space s) = occurrences HYPHEN s.
Proof.
  induction s as [|c r IH]; simpl; [done|].
  destruct (c <? 127)%N eqn:Hc.
  { intros [? ?]%Forall_cons. rewrite !occurrences_cons, IH by done. done. }
  assert (c ≠ HYPHEN) by (intros ->; done).
  destruct (unicode_isspace c).
  { intros [? ?]%Forall_cons. rewrite !occurrences_cons, IH by done.
    rewrite decide_False by done. by rewrite decide_False by done. }
  destruct (unicode_todecimal c) as [d|].
  { intros [? ?]%Forall_cons. rewrite !occurrences_cons, IH by done.
    rewrite decide_False by (unfold HYPHEN; lia). by rewrite decide_False by done. }
  by intros [? ?]%Forall_cons.
Qed.

Lemma ascii_buffer_chars s :
  Forall (λ c, int_char c = true) (ascii_buffer s) →
  Forall (λ c, int_codepoint c = true) s.
Proof.
  unfold ascii_buffer. destruct (forallb _ s) eqn:Hascii; [|apply transform_chars].
  intros Hall. eapply Forall_impl; [exact Hall|]. intros c Hc. unfold int_codepoint.
  destruct (c <? 127)%N eqn:Hlt; [done|].
  apply N.ltb_ge in Hlt. apply int_char_ascii in Hc. lia.
Qed.

Lemma ascii_buffer_hyphens s :
  Forall (λ c, int_char c = true) (ascii_buffer s) →
  occurrences HYPHEN (ascii_buffer s) = occurrences HYPHEN s.
Proof.
  unfold ascii_buffer. destruct (forallb _ s); [done | apply transform_hyphens].
Qed.

Lemma py_int_chars s v :
  py_int s = Ok v → Forall (λ c, int_codepoint c = true) s.
Proof. intros Hv. by apply ascii_buffer_chars, long_from_string_chars with v. Qed.

Lemma py_int_hyphens s v : py_int s = Ok v → (occurrences HYPHEN s ≤ 1)%nat.
Proof.
  intros Hv. rewrite <- ascii_buffer_hyphens.
  - by apply long_from_string_hyphens with v.
  - by apply long_from_string_chars with v.
Qed.

(** Without a hyphen there is no sign, so the value is not negative. *)
Lemma py_int_nonneg s v : py_int s = Ok v → HYPHEN ∉ s → (0 ≤ v)%Z.
Proof.
  intros Hv Hno. apply long_from_string_nonneg with (ascii_buffer s); [done|].
  intros Hin%occurrences_pos.
  rewrite ascii_buffer_hyphens in Hin by by apply long_from_string_chars with v.
  rewrite occurrences_0 in Hin by done. lia.
Qed.

Lemma py_int_nil : py_int [] = Raise ValueError.
Proof. reflexivity. Qed.

Lemma py_int_en_dash s v :
  en_dash_is_punctuation → py_int s = Ok v → EN_DASH ∉ s.
Proof.
  intros [Hs Hd] Hall%py_int_chars Hin.
  rewrite Forall_forall in Hall. specialize (Hall _ Hin).
  unfold int_codepoint in Hall. simpl in Hall. by rewrite Hs, Hd in Hall.
Qed.

End IntFacts.
(** ** Facts about [replace] and [split] *)

Lemma split_not_nil sep s : split sep s ≠ [].
Proof.
  destruct s as [|c r]; simpl; [done|].
  destruct (c =? sep)%N; [done|]. by destruct (split sep r).
Qed.

Lemma split_length sep s : length (split sep s) = S (occurrences sep s).
Proof.
  induction s as [|c r IH]; simpl; [done|].
  rewrite occurrences_cons. destruct (N.eqb_spec c sep) as [->|Hne].
  - rewrite decide_True by done. simpl. by rewrite IH.
  - rewrite decide_False by done. rewrite <- IH.
    pose proof (split_not_nil sep r). by destruct (split sep r).
Qed.

(** No part holds the separator. *)
Lemma split_no_sep sep s p : p ∈ split sep s → sep ∉ p.
Proof.
  revert p. induction s as [|c r IH]; simpl; intros p.
  - rewrite list_elem_of_singleton. intros ->. apply not_elem_of_nil.
  - destruct (N.eqb_spec c sep) as [->|Hne].
    + rewrite elem_of_cons. intros [-> | ?]; [apply not_elem_of_nil | auto].
    + pose proof (split_not_nil sep r). destruct (split sep r) as [|q qs]; [done|].
      rewrite elem_of_cons. intros [-> | ?].
      * rewrite not_elem_of_cons. split; [done|]. apply IH. by left.
      * apply IH. by right.
Qed.

(** Every other character lands in some part. *)
Lemma split_elem sep s c : c ∈ s → c ≠ sep → ∃ p, p ∈ split sep s ∧ c ∈ p.
Proof.
  intros Hin Hc. induction s as [|x r IH]; [by apply elem_of_nil in Hin|].
  simpl. apply elem_of_cons in Hin.
  destruct (N.eqb_spec x sep) as [->|Hne].
  - destruct Hin as [-> | Hin]; [done|].
    destruct (IH Hin) as (p & ? & ?). exists p. split; [by right | done].
  - pose proof (split_not_nil sep r). destruct (split sep r) as [|q qs]; [done|].
    destruct Hin as [-> | Hin].
    + exists (x :: q). split; by left.
    + destruct (IH Hin) as (p & [-> | ?]%elem_of_cons & ?).
      * exists (x :: q). split; [by left | by right].
      * exists p. split; [by right | done].
Qed.

(** A text without separator is its own single part. *)
Lemma split_single sep s p : split sep s = [p] → p = s.
Proof.
  revert p. induction s as [|c r IH]; simpl; intros p.
  - by intros [= <-].
  - destruct (c =? sep)%N.
    + intros [= ? Hnil]. by apply split_not_nil in Hnil.
    + pose proof (split_not_nil sep r). destruct (split sep r) as [|q qs]; [done|].
      intros [= <- ->]. by rewrite (IH q).
Qed.

Lemma replace_id old new s : old ∉ s → replace old new s = s.
Proof.
  induction s as [|c r IH]; [done|].
  rewrite not_elem_of_cons. intros [Hc Hr]. unfold replace in *.
  rewrite fmap_cons, IH by done. destruct (N.eqb_spec c old); [congruence | done].
Qed.

Lemma replace_elem old new s c : c ∈ s → c ≠ old → c ∈ replace old new s.
Proof.
  intros Hin Hc. unfold replace. apply list_elem_of_fmap. exists c. split; [|done].
  destruct (N.eqb_spec c old); [congruence | done].
Qed.

Lemma replace_occurrences s :
  occurrences HYPHEN (replace EN_DASH HYPHEN s)
  = (occurrences HYPHEN s + occurrences EN_DASH s)%nat.
Proof.
  induction s as [|c r IH]; [done|].
  unfold replace in *. rewrite fmap_cons, !occurrences_cons, IH.
  destruct (N.eqb_spec c EN_DASH) as [-> | Hne].
  - rewrite decide_True by done. rewrite decide_False by done.
    rewrite decide_True by done. lia.
  - rewrite (decide_False (P := c = EN_DASH)) by done.
    destruct (decide (c = HYPHEN)); lia.
Qed.

(** A single part means the text held neither dash. *)
Lemma single_part_is_input s token :
  split HYPHEN (replace EN_DASH HYPHEN s) = [token] → token = s.
Proof.
  intros Hsplit. pose proof (split_length HYPHEN (replace EN_DASH HYPHEN s)) as Hlen.
  rewrite Hsplit, replace_occurrences in Hlen. simpl in Hlen.
  apply split_single in Hsplit as ->. apply replace_id.
  intros Hin%occurrences_pos. lia.
Qed.

(** ** The rank normaliser *)

Section ParseFacts.
Context `{PyRuntime}.

(** Neither of two parts can carry a sign: both read as non-negative. *)
Lemma part_nonneg s p v :
  p ∈ split HYPHEN (replace EN_DASH HYPHEN s) → py_int p = Ok v → (0 ≤ v)%Z.
Proof. intros Hp%split_no_sep Hv. by apply py_int_nonneg with p. Qed.

Lemma parse_rank_range_refines s : parse_rank_range s = parse_rank s.
Proof.
  unfold parse_rank_range, parse_rank_range_try, parse_rank, single_rank.
  destruct (split HYPHEN (replace EN_DASH HYPHEN s)) as [|p0 [|p1 [|p2 ps]]] eqn:E.
  - by destruct (py_int s).
  - apply single_part_is_input in E as ->. by destruct (py_int s).
  - destruct (py_int p0) as [low|] eqn:E0; [|done].
    destruct (py_int p1) as [high|] eqn:E1; [|done].
    simpl. do 3 f_equal.
    assert (0 ≤ low)%Z by (apply (part_nonneg s p0); [rewrite E; set_solver | done]).
    assert (0 ≤ high)%Z by (apply (part_nonneg s p1); [rewrite E; set_solver | done]).
    symmetry. apply Z.quot_div_nonneg; lia.
  - by destruct (py_int s).
Qed.

(** A text with more than two parts is never read as an integer. *)
Lemma many_parts_raise s v :
  en_dash_is_punctuation →
  (2 < length (split HYPHEN (replace EN_DASH HYPHEN s)))%nat →
  py_int s ≠ Ok v.
Proof.
  intros Hdash. rewrite split_length, replace_occurrences. intros Hlen Hv.
  pose proof (py_int_hyphens _ _ Hv).
  pose proof (py_int_en_dash _ _ Hdash Hv) as Hno%occurrences_0. lia.
Qed.

Lemma many_parts_no_range s :
  en_dash_is_punctuation →
  (2 < length (split HYPHEN (replace EN_DASH HYPHEN s)))%nat →
  parse_rank_range s = no_range.
Proof.
  intros Hdash Hlen. unfold parse_rank_range, parse_rank_range_try.
  destruct (py_int s) as [v|e] eqn:Hv.
  { by apply many_parts_raise in Hv. }
  by destruct (split HYPHEN (replace EN_DASH HYPHEN s)) as [|p0 [|p1 [|p2 ps]]];
    simpl in Hlen; try lia.
Qed.

(** One character [int] cannot accept spoils the whole text. *)
Lemma non_numeric_no_range s c :
  c ∈ s → numeric_codepoint c = false → parse_rank_range s = no_range.
Proof.
  intros Hin [Hint Hne%N.eqb_neq]%orb_false_iff.
  assert (c ≠ HYPHEN) as Hhy by (intros ->; vm_compute in Hint; done).
  assert (∀ p v, c ∈ p → py_int p ≠ Ok v) as Hbad.
  { intros p v Hp Hall%py_int_chars. rewrite Forall_forall in Hall.
    specialize (Hall c Hp). congruence. }
  destruct (split_elem HYPHEN (replace EN_DASH HYPHEN s) c) as (p & Hp & Hcp);
    [by apply replace_elem | done |].
  unfold parse_rank_range, parse_rank_range_try.
  destruct (split HYPHEN (replace EN_DASH HYPHEN s)) as [|p0 [|p1 [|p2 ps]]] eqn:E.
  - destruct (py_int s) eqn:Hv; [by apply Hbad in Hv | done].
  - destruct (py_int s) eqn:Hv; [by apply Hbad in Hv | done].
  - destruct (py_int p0) eqn:E0; [|done]. destruct (py_int p1) eqn:E1; [|done].
    exfalso. apply elem_of_cons in Hp as [-> | Hp]; [by eapply Hbad|].
    apply list_elem_of_singleton in Hp as ->. by eapply Hbad.
  - destruct (py_int s) eqn:Hv; [by apply Hbad in Hv | done].
Qed.

(** The parser answers with three numbers or with three nulls. *)
Lemma parse_rank_range_total s :
  parse_rank_range s = no_range
  ∨ ∃ low high mid, parse_rank_range s = (Some low, Some high, Some mid).
Proof.
  unfold parse_rank_range.
  destruct (parse_rank_range_try s) as [[[low high] mid]|]; [right | by left].
  by exists low, high, mid.
Qed.

Lemma split_no_occurrence sep s : sep ∉ s → split sep s = [s].
Proof.
  induction s as [|c r IH]; [done|]. rewrite not_elem_of_cons. intros [Hc Hr].
  simpl. rewrite IH by done. by destruct (N.eqb_spec c sep).
Qed.

(** A hyphen in front of digits leaves an empty first part. *)
Lemma hyphen_digits_no_range ds :
  Forall (λ c, is_ascii_digit c = true) ds →
  parse_rank_range (HYPHEN :: ds) = no_range.
Proof.
  intros Hds. unfold parse_rank_range, parse_rank_range_try.
  assert (∀ c, (57 < c)%N ∨ (c < 48)%N → c ∉ ds) as Hno.
  { intros c Hc Hin. rewrite Forall_forall in Hds. specialize (Hds c Hin).
    unfold is_ascii_digit in Hds. apply andb_true_iff in Hds as [?%N.leb_le ?%N.leb_le].
    lia. }
  rewrite replace_id.
  2:{ rewrite not_elem_of_cons. split; [done|]. apply Hno. unfold EN_DASH. lia. }
  simpl. by rewrite split_no_occurrence by (apply Hno; unfold HYPHEN; lia).
Qed.

(** No accepted range holds a negative number. *)
Lemma parse_rank_range_nonneg s low high mid :
  en_dash_is_punctuation →
  parse_rank_range s = (Some low, Some high, Some mid) →
  (0 ≤ low ∧ 0 ≤ high ∧ 0 ≤ mid)%Z.
Proof.
  intros Hdash. rewrite parse_rank_range_refines. unfold parse_rank, single_rank.
  destruct (split HYPHEN (replace EN_DASH HYPHEN s)) as [|p0 [|p1 [|p2 ps]]] eqn:E.
  - by apply split_not_nil in E.
  - destruct (py_int p0) as [v|] eqn:Hv; [|done]. intros [= <- <- <-].
    assert (0 ≤ v)%Z by (apply (part_nonneg s p0); [rewrite E; set_solver | done]).
    done.
  - destruct (py_int p0) as [v0|] eqn:E0; [|done].
    destruct (py_int p1) as [v1|] eqn:E1; [|done]. intros [= <- <- <-].
    assert (0 ≤ v0)%Z by (apply (part_nonneg s p0); [rewrite E; set_solver | done]).
    assert (0 ≤ v1)%Z by (apply (part_nonneg s p1); [rewrite E; set_solver | done]).
    split_and!; [done | done |]. apply Z.quot_pos; lia.
  - destruct (py_int s) as [v|] eqn:Hv; [|done].
    apply many_parts_raise in Hv; [done | done |]. rewrite E. simpl. lia.
Qed.

End ParseFacts.

(** ** Lists: [unique] and [sorted] *)

Lemma elem_of_unique_from `{EqDecision A} (seen l : list A) (x : A) :
  x ∈ unique_from seen l ↔ x ∈ l ∧ x ∉ seen.
Proof.
  revert seen. induction l as [|y l IH]; intros seen; simpl.
  - rewrite elem_of_nil. tauto.
  - destruct (decide (y ∈ seen)) as [Hy|Hy].
    + rewrite IH, elem_of_cons. split; [tauto|].
      intros [[-> | ?] ?]; [done | tauto].
    + rewrite elem_of_cons, IH, not_elem_of_cons, elem_of_cons.
      destruct (decide (x = y)) as [-> | ?]; tauto.
Qed.

Lemma NoDup_unique_from `{EqDecision A} (seen l : list A) :
  NoDup (unique_from seen l).
Proof.
  revert seen. induction l as [|y l IH]; intros seen; simpl.
  - constructor.
  - destruct (decide (y ∈ seen)); [apply IH|].
    constructor; [|apply IH].
    rewrite elem_of_unique_from, not_elem_of_cons. tauto.
Qed.

Lemma elem_of_unique `{EqDecision A} (l : list A) (x : A) : x ∈ unique l ↔ x ∈ l.
Proof.
  unfold unique. rewrite elem_of_unique_from. pose proof (not_elem_of_nil x). tauto.
Qed.

Lemma NoDup_unique `{EqDecision A} (l : list A) : NoDup (unique l).
Proof. apply NoDup_unique_from. Qed.

Lemma str_leb_total s t : str_leb s t = false → str_leb t s = true.
Proof.
  revert t. induction s as [|a s IH]; intros [|b t]; simpl; try done.
  destruct (N.ltb_spec a b), (N.ltb_spec b a), (N.eqb_spec a b), (N.eqb_spec b a);
    try done; try lia. apply IH.
Qed.

#[global] Instance str_le_total : Total str_le.
Proof.
  intros s t. unfold str_le. destruct (str_leb s t) eqn:E; [by left|].
  right. by apply str_leb_total.
Qed.

#[global] Instance str_le_trans : Transitive str_le.
Proof.
  unfold str_le. intros s. induction s as [|a s IH]; intros [|b t] [|c u]; simpl;
    try done.
  destruct (N.ltb_spec a b), (N.ltb_spec b c), (N.ltb_spec a c),
    (N.eqb_spec a b), (N.eqb_spec b c), (N.eqb_spec a c); try done; try lia.
  apply IH.
Qed.

#[global] Instance str_le_antisymm : AntiSymm (=) str_le.
Proof.
  unfold str_le. intros s. induction s as [|a s IH]; intros [|b t]; simpl; try done.
  destruct (N.ltb_spec a b), (N.ltb_spec b a), (N.eqb_spec a b), (N.eqb_spec b a);
    try done; try lia.
  intros ? ?. subst. f_equal. by apply IH.
Qed.

Lemma elem_of_sorted l x : x ∈ sorted l ↔ x ∈ l.
Proof. unfold sorted. by rewrite merge_sort_Permutation. Qed.

Lemma sorted_ascending l : StronglySorted str_le (sorted l).
Proof. apply StronglySorted_merge_sort; apply _. Qed.

Lemma sorted_NoDup l : NoDup l → NoDup (sorted l).
Proof. unfold sorted. by rewrite merge_sort_Permutation. Qed.

(** ** Tables *)

Lemma elem_of_names df x : x ∈ names df ↔ ∃ r, r ∈ rows df ∧ IPEDS_Name r = x.
Proof. unfold names. rewrite list_elem_of_fmap. naive_solver. Qed.

Lemma filter_fmap_comm {A B} (f : A → B) (P : B → Prop) `{!∀ b, Decision (P b)}
    (l : list A) :
  filter P (f <$> l) = f <$> filter (λ a, P (f a)) l.
Proof.
  induction l as [|a l IH]; [done|].
  rewrite fmap_cons, !filter_cons, IH. by destruct (decide (P (f a))).
Qed.

Lemma select_select (P Q : Row → Prop) `{!∀ r, Decision (P r), !∀ r, Decision (Q r)} df :
  select P (select Q df) = select (λ r, Q r ∧ P r) df.
Proof.
  unfold select. simpl. f_equal. rewrite list_filter_filter.
  apply list_filter_iff. naive_solver.
Qed.

Lemma has_column_select (P : Row → Prop) `{!∀ r, Decision (P r)} df c :
  has_column (select P df) c = has_column df c.
Proof. done. Qed.

(** ** Institution reconciler *)

(** C1. The common-institution set is exactly the intersection of the four
    [IPEDS_Name] columns: a name is returned if and only if it occurs in all
    four tables, and the set is empty as soon as one table is empty. *)
Theorem get_common_universities_intersection times_df qs_df usn_df washington_df :
  (∀ u, u ∈ get_common_universities times_df qs_df usn_df washington_df
        ↔ u ∈ names times_df ∧ u ∈ names qs_df
          ∧ u ∈ names usn_df ∧ u ∈ names washington_df)
  ∧ (rows times_df = [] ∨ rows qs_df = [] ∨ rows usn_df = [] ∨ rows washington_df = []
     → get_common_universities times_df qs_df usn_df washington_df = ∅).
Proof.
  unfold get_common_universities, names. split.
  - intros u. rewrite !elem_of_intersection, !elem_of_list_to_set. naive_solver.
  - intros [-> | [-> | [-> | ->]]]; set_solver.
Qed.

Lemma get_common_universities_intersection_witness :
  rows empty_table = []
  ∧ get_common_universities table_ABC empty_table table_ABC table_AB = ∅.
Proof.
  split; [reflexivity|].
  apply (get_common_universities_intersection table_ABC empty_table table_ABC table_AB).
  right. left. reflexivity.
Defined.

(** C7. The extras of a source are the names of that source that are not in
    the common set and differ from the anchor, in ascending lexicographic
    order and without repetition; so they are disjoint from the common set
    and never hold the anchor. *)
Theorem extras_spec df common_universities anchor :
  (∀ u, u ∈ extras df common_universities anchor
        ↔ u ∈ names df ∧ (u ∉ common_universities) ∧ u ≠ anchor)
  ∧ StronglySorted str_le (extras df common_universities anchor)
  ∧ NoDup (extras df common_universities anchor)
  ∧ (∀ u, u ∈ extras df common_universities anchor → u ∉ common_universities)
  ∧ anchor ∉ extras df common_universities anchor.
Proof.
  assert (∀ u, u ∈ extras df common_universities anchor
               ↔ u ∈ names df ∧ (u ∉ common_universities) ∧ u ≠ anchor) as Hin.
  { intros u. unfold extras.
    rewrite elem_of_sorted, list_elem_of_filter, elem_of_unique. naive_solver. }
  split_and!; [done | apply sorted_ascending | | |].
  - apply sorted_NoDup, NoDup_filter, NoDup_unique.
  - intros u Hu. by apply Hin in Hu as (_ & ? & _).
  - intros Hu. by apply Hin in Hu as (_ & _ & ?).
Qed.

(** ** Selection and filter engine *)

Lemma get_filtered_combined_df_refines combined_df common_universities f :
  (f ≠ All → has_column combined_df NEW_JERSEY_UNIVERSITY = true) →
  get_filtered_combined_df combined_df common_universities (nj_filter_of f)
  = Ok (filter_combined combined_df common_universities f).
Proof.
  intros Hcol. unfold get_filtered_combined_df, filter_combined, column.
  destruct f; simpl.
  - f_equal. unfold select. f_equal. apply list_filter_iff. naive_solver.
  - rewrite has_column_select, Hcol by done. simpl. by rewrite select_select.
  - rewrite has_column_select, Hcol by done. simpl. by rewrite select_select.
Qed.

(** C8. [get_filtered_combined_df] returns exactly the rows whose institution
    is in the common set, further restricted to the rows flagged "Yes" under
    [InRegionOnly] and to the rows flagged "No" under [OutOfRegionOnly];
    [All] adds no restriction. The rows keep their order and the table its
    columns. The region flag is read only under the two restricting
    settings, where its column has to exist. *)
Theorem get_filtered_combined_df_spec combined_df common_universities f :
  (f ≠ All → has_column combined_df NEW_JERSEY_UNIVERSITY = true) →
  get_filtered_combined_df combined_df common_universities (nj_filter_of f)
  = Ok (filter_combined combined_df common_universities f)
  ∧ nj_filter_of f
    = match f with
      | All => lit "All"
      | InRegionOnly => lit "Yes"
      | OutOfRegionOnly => lit "No"
      end
  ∧ ∃ d, get_filtered_combined_df combined_df common_universities (nj_filter_of f) = Ok d
         ∧ columns d = columns combined_df
         ∧ rows d
           = filter (λ r, IPEDS_Name r ∈ common_universities ∧ region_matches f r)
               (rows combined_df)
         ∧ rows d `sublist_of` rows combined_df
         ∧ ∀ r, r ∈ rows d
                ↔ r ∈ rows combined_df
                  ∧ IPEDS_Name r ∈ common_universities
                  ∧ match f with
                    | All => True
                    | InRegionOnly =>
                        cell_at r NEW_JERSEY_UNIVERSITY = Str (lit "Yes")
                    | OutOfRegionOnly =>
                        cell_at r NEW_JERSEY_UNIVERSITY = Str (lit "No")
                    end.
Proof.
  intros Hcol.
  pose proof (get_filtered_combined_df_refines _ common_universities _ Hcol) as Heq.
  split_and!; [done | by destruct f |].
  exists (filter_combined combined_df common_universities f).
  unfold filter_combined, select. simpl. split_and!; [done | done | done | |].
  - apply sublist_filter.
  - intros r. rewrite list_elem_of_filter. destruct f; simpl; tauto.
Qed.

(** C9. Filtering by years and names is idempotent: applied to its own
    result with the same criteria it returns that result, rows in the same
    order. *)
Theorem filter_years_names_idempotent df selected_years unis :
  filter_years_names (filter_years_names df selected_years unis) selected_years unis
  = filter_years_names df selected_years unis.
Proof.
  unfold filter_years_names. rewrite select_select.
  unfold select. f_equal. apply list_filter_iff. naive_solver.
Qed.

(** ** Metric lookup *)

Lemma first_row_None subset u : first_row subset u = None ↔ u ∉ names subset.
Proof.
  unfold first_row. rewrite head_None, elem_of_names. split.
  - intros Hnil (r & Hr & Hu).
    assert (r ∈ filter (λ r, IPEDS_Name r = u) (rows subset)) as Hin
      by by apply list_elem_of_filter.
    rewrite Hnil in Hin. by apply elem_of_nil in Hin.
  - intros Hno. destruct (filter _ (rows subset)) as [|r l] eqn:E; [done|].
    exfalso. apply Hno. exists r.
    assert (r ∈ filter (λ r, IPEDS_Name r = u) (rows subset)) as Hin
      by (rewrite E; by left).
    apply list_elem_of_filter in Hin. naive_solver.
Qed.

Lemma get_metric_value_refines df university col :
  get_metric_value df university col = get_metric df university col.
Proof.
  unfold get_metric_value, get_metric_value_try, get_metric, first_row, column.
  rewrite has_column_select. simpl.
  destruct (has_column df col); simpl.
  - destruct (filter _ (rows df)) as [|r l]; simpl; [done|].
    by destruct (notna (cell_at r col)).
  - by destruct (head _).
Qed.

(** C5. [get_metric_value] is total: it returns the value of the first row
    of the institution when that value is present and not missing, and the
    sentinel "N/A" when the institution has no row, when the column does not
    exist, or when the value is missing. *)
Theorem get_metric_value_total df university col :
  get_metric_value df university col = get_metric df university col
  ∧ (university ∉ names df → get_metric_value df university col = Str N_A)
  ∧ (has_column df col = false → get_metric_value df university col = Str N_A)
  ∧ (∀ r, first_row df university = Some r → notna (cell_at r col) = false →
          get_metric_value df university col = Str N_A)
  ∧ (∀ r, first_row df university = Some r → has_column df col = true →
          notna (cell_at r col) = true →
          get_metric_value df university col = cell_at r col).
Proof.
  rewrite get_metric_value_refines. unfold get_metric. split_and!; [done | | | |].
  - intros Hno%first_row_None. by rewrite Hno.
  - intros ->. by destruct (first_row df university).
  - intros r -> ->. by rewrite andb_false_r.
  - by intros r -> -> ->.
Qed.

(** ** Latest year *)

Lemma foldl_max_spec (x : Z) (l : list Z) :
  foldl Z.max x l ∈ x :: l ∧ ∀ y, y ∈ x :: l → (y ≤ foldl Z.max x l)%Z.
Proof.
  revert x. induction l as [|z l IH]; intros x; simpl.
  - split; [by left|]. intros y ->%list_elem_of_singleton. lia.
  - destruct (IH (x `max` z)%Z) as [Hin Hmax]. split.
    + apply elem_of_cons in Hin as [-> | Hin]; [|by do 2 right].
      destruct (Z.max_spec x z) as [[_ ->] | [_ ->]]; [right; by left | by left].
    + intros y [-> | [-> | Hy]%elem_of_cons]%elem_of_cons.
      * etrans; [|apply Hmax; by left]. lia.
      * etrans; [|apply Hmax; by left]. lia.
      * apply Hmax. by right.
Qed.

Lemma py_max_spec (values : list Z) :
  match py_max values with
  | Some m => m ∈ values ∧ ∀ y, y ∈ values → (y ≤ m)%Z
  | None => values = []
  end.
Proof. destruct values as [|x l]; simpl; [done | apply foldl_max_spec]. Qed.

Lemma filter_years_names_years df selected_years unis y :
  y ∈ years (filter_years_names df selected_years unis) → y ∈ selected_years.
Proof.
  unfold years, filter_years_names, select. simpl.
  intros (r & -> & Hr%list_elem_of_filter)%list_elem_of_fmap. naive_solver.
Qed.

(** C6. The latest period is the maximum of the years that are both in the
    subset and selected, and null when there is none. The agency tabs
    intersect with the selected years themselves; the Overview tab takes the
    maximum of the years of the filtered table, whose years are all
    selected. *)
Theorem latest_period_spec :
  (∀ subset selected_years,
     is_latest_period subset selected_years (latest_times_year selected_years subset))
  ∧ (∀ df selected_years unis,
       is_latest_period (filter_years_names df selected_years unis) selected_years
         (latest_years (filter_years_names df selected_years unis))).
Proof.
  split.
  - intros subset selected_years. unfold latest_times_year, is_latest_period.
    pose proof (py_max_spec
      (filter (λ y, y ∈ unique (years subset)) selected_years)) as Hmax.
    destruct (py_max _) as [m|].
    + destruct Hmax as [Hin Hmax]. apply list_elem_of_filter in Hin as [Hm ?].
      rewrite elem_of_unique in Hm. split_and!; [done | done |].
      intros y Hy Hsel. apply Hmax, list_elem_of_filter.
      by rewrite elem_of_unique.
    + intros y Hy Hsel.
      assert (y ∈ filter (λ y, y ∈ unique (years subset)) selected_years) as Hin
        by (apply list_elem_of_filter; by rewrite elem_of_unique).
      rewrite Hmax in Hin. by apply elem_of_nil in Hin.
  - intros df selected_years unis. unfold latest_years, is_latest_period.
    set (filtered := filter_years_names df selected_years unis).
    pose proof (py_max_spec (unique (years filtered))) as Hmax.
    destruct (py_max _) as [m|].
    + destruct Hmax as [Hin Hmax]. rewrite elem_of_unique in Hin.
      split_and!; [done | |].
      * by apply filter_years_names_years in Hin.
      * intros y Hy _. by apply Hmax, elem_of_unique.
    + intros y Hy. rewrite <- elem_of_unique, Hmax in Hy. by apply elem_of_nil in Hy.
Qed.

(** ** Rank-range tables *)

Lemma cell_at_set_cell_MID v r : cell_at (set_cell MID v r) MID = v.
Proof. unfold cell_at, set_cell. simpl. by rewrite lookup_insert_eq. Qed.

Section RankFacts.
Context `{PyRuntime} `{PandasRuntime}.

Lemma attach_range_mid parsed metric_col r :
  cell_at (attach_range parsed metric_col r) MID
  = cell_of parsed MID (rank_mid (parse_rank_range (py_str (cell_at r metric_col)))).
Proof.
  unfold attach_range, rank_mid.
  destruct (parse_rank_range _) as [[low high] mid]. apply cell_at_set_cell_MID.
Qed.

(** A row without midpoint gets a missing [mid], whatever the storage. *)
Lemma attach_range_mid_missing parsed metric_col r :
  notna (cell_at (attach_range parsed metric_col r) MID) = true →
  is_Some (rank_mid (parse_rank_range (py_str (cell_at r metric_col)))).
Proof.
  rewrite attach_range_mid.
  destruct (rank_mid (parse_rank_range (py_str (cell_at r metric_col))));
    [done|]. simpl. by destruct (keeps_none parsed MID).
Qed.

End RankFacts.

Lemma uint_digits d :
  Forall (λ c, is_ascii_digit c = true) (lit (NilEmpty.string_of_uint d)).
Proof. induction d; simpl; by constructor. Qed.

(** [str] of a negative [int] is a hyphen in front of digits. *)
Lemma str_of_int_negative z :
  (z < 0)%Z →
  ∃ ds, str_of_int z = HYPHEN :: ds ∧ Forall (λ c, is_ascii_digit c = true) ds.
Proof.
  destruct z as [|p|p]; [lia | lia |]. intros _.
  exists (lit (NilEmpty.string_of_uint (Pos.to_uint p))). split; [done|].
  apply uint_digits.
Qed.

Section RankClaims.
Context `{PyRuntime} `{PandasRuntime}.

Lemma result_rows_resolved df metric_col df' r :
  build_rank_range_df df metric_col = Ok df' →
  r ∈ rows df' → notna (cell_at r MID) = true.
Proof.
  unfold build_rank_range_df, column.
  destruct (has_column df metric_col); [|done]. simpl.
  destruct (_ <$> filter _ (rows df)); [done|]. intros [= <-].
  unfold select. simpl. by intros [? _]%list_elem_of_filter.
Qed.

(** Without a row that has a metric, the three-column assignment raises. *)
Lemma build_rank_range_df_no_metric df metric_col :
  has_column df metric_col = true →
  (∀ r, r ∈ rows df → notna (cell_at r metric_col) = false) →
  build_rank_range_df df metric_col = Raise ValueError.
Proof.
  intros Hcol Hnone. unfold build_rank_range_df, column. rewrite Hcol. simpl.
  assert (filter (λ r, notna (cell_at r metric_col) = true) (rows df) = []) as ->;
    [|done].
  induction (rows df) as [|r l IH]; [done|].
  rewrite filter_cons_False.
  - apply IH. intros r' Hr'. apply Hnone. by right.
  - rewrite (Hnone r) by by left. done.
Qed.

(** C2. [parse_rank_range] unifies the dash and splits on the hyphen; two
    parts that both read as integers give [(low, high, mid)] with the first
    part as [low], the second as [high] and the truncated half of their sum
    as [mid]; otherwise a single token that reads as the integer [v] gives
    [(v, v, v)]. So "501-600" gives (501, 600, 550), the en-dash spelling
    gives the same, "42" gives (42, 42, 42), and "501-602" has midpoint
    551. *)
Theorem parse_rank_range_spec :
  (∀ rank_str, parse_rank_range rank_str = parse_rank rank_str)
  ∧ parse_rank_range (lit "501-600") = (Some 501, Some 600, Some 550)%Z
  ∧ parse_rank_range (lit "501" ++ [EN_DASH] ++ lit "600")
    = parse_rank_range (lit "501-600")
  ∧ parse_rank_range (lit "42") = (Some 42, Some 42, Some 42)%Z
  ∧ rank_mid (parse_rank_range (lit "501-602")) = Some 551%Z.
Proof. split_and!; [apply parse_rank_range_refines | done..]. Qed.

(** C3. Whenever the reading fails, [parse_rank_range] returns the
    all-null triple and raises nothing: when the body of its [try] raises,
    when the text holds a character that no integer literal can hold, when
    it has more than two hyphen-separated parts, when one of two parts does
    not read as an integer, for the empty text and for "N/A". Its answer is
    always three numbers or three nulls. *)
Theorem parse_rank_range_failure :
  en_dash_is_punctuation →
  (∀ s e, parse_rank_range_try s = Raise e → parse_rank_range s = no_range)
  ∧ (∀ s c, c ∈ s → numeric_codepoint c = false → parse_rank_range s = no_range)
  ∧ (∀ s, (2 < length (split HYPHEN (replace EN_DASH HYPHEN s)))%nat →
          parse_rank_range s = no_range)
  ∧ (∀ s p0 p1 e, split HYPHEN (replace EN_DASH HYPHEN s) = [p0; p1] →
          py_int p0 = Raise e ∨ py_int p1 = Raise e →
          parse_rank_range s = no_range)
  ∧ parse_rank_range [] = no_range
  ∧ parse_rank_range (lit "N/A") = no_range
  ∧ (∀ s, parse_rank_range s = no_range
          ∨ ∃ low high mid, parse_rank_range s = (Some low, Some high, Some mid)).
Proof.
  intros Hdash. split_and!; [| | | | done | done |].
  - intros s e He. unfold parse_rank_range. by rewrite He.
  - apply non_numeric_no_range.
  - intros s. by apply many_parts_no_range.
  - intros s p0 p1 e E Hfail. unfold parse_rank_range, parse_rank_range_try.
    rewrite E. destruct Hfail as [-> | Hp1]; [done|].
    destruct (py_int p0); [|done]. by rewrite Hp1.
  - apply parse_rank_range_total.
Qed.

(** C4. On a table that the first mask leaves without rows (no row at all,
    as when no year is selected, or only missing metrics),
    [build_rank_range_df] does not return the retained rows, here the empty
    table: the three-column assignment raises [ValueError]. These are the
    only tables with the metric column on which it raises. *)
Theorem build_rank_range_df_no_rows_raises df metric_col :
  has_column df metric_col = true →
  ((∀ r, r ∈ rows df → notna (cell_at r metric_col) = false)
   ↔ build_rank_range_df df metric_col = Raise ValueError)
  ∧ ((∀ r, r ∈ rows df → notna (cell_at r metric_col) = false) →
     build_rank_range_df df metric_col
     ≠ Ok {| columns := foldl add_column (columns df) [LOW; HIGH; MID]; rows := [] |}).
Proof.
  intros Hcol. split; [split|].
  - by apply build_rank_range_df_no_metric.
  - unfold build_rank_range_df, column. rewrite Hcol. simpl.
    destruct (filter _ (rows df)) as [|r0 l] eqn:Hfilter; [|done].
    intros _ r Hr. destruct (notna (cell_at r metric_col)) eqn:Hna; [|done].
    assert (r ∈ filter (λ r, notna (cell_at r metric_col) = true) (rows df)) as Hin
      by by apply list_elem_of_filter.
    rewrite Hfilter in Hin. by apply not_elem_of_nil in Hin.
  - intros Hnone. by rewrite build_rank_range_df_no_metric.
Qed.

(** C10. A hyphen in front of digits never reads as a rank: the split
    leaves an empty first part, so the answer is the all-null triple, for
    such a text and for [str] of a negative [int] alike. No accepted range
    holds a negative number, and [build_rank_range_df] drops every row
    whose metric reads that way. *)
Theorem negative_rank_rejected :
  (∀ ds, Forall (λ c, is_ascii_digit c = true) ds →
         parse_rank_range (HYPHEN :: ds) = no_range)
  ∧ (∀ z, (z < 0)%Z → parse_rank_range (str_of_int z) = no_range)
  ∧ (en_dash_is_punctuation →
     ∀ s low high mid, parse_rank_range s = (Some low, Some high, Some mid) →
                       (0 ≤ low ∧ 0 ≤ high ∧ 0 ≤ mid)%Z)
  ∧ (∀ df metric_col df' r ds,
       build_rank_range_df df metric_col = Ok df' →
       Forall (λ c, is_ascii_digit c = true) ds →
       py_str (cell_at r metric_col) = HYPHEN :: ds →
       ¬ resolved metric_col r
       ∧ ∀ parsed, attach_range parsed metric_col r ∉ rows df').
Proof.
  split_and!.
  - apply hyphen_digits_no_range.
  - intros z (ds & -> & Hds)%str_of_int_negative. by apply hyphen_digits_no_range.
  - intros Hdash s low high mid. by apply parse_rank_range_nonneg.
  - intros df metric_col df' r ds Hdf Hds Hstr.
    pose proof (hyphen_digits_no_range ds Hds) as Hno.
    rewrite <- Hstr in Hno. split.
    + intros [_ [m Hm]]. by rewrite <- parse_rank_range_refines, Hno in Hm.
    + intros parsed Hin%(result_rows_resolved _ _ _ _ Hdf).
      apply attach_range_mid_missing in Hin as [m Hm]. by rewrite Hno in Hm.
Qed.

End RankClaims.

(** ** The properties at concrete inputs *)

Lemma parse_rank_range_failure_witness :
  @en_dash_is_punctuation sample_runtime
  ∧ @parse_rank_range sample_runtime (lit "1-2-3") = no_range
  ∧ @parse_rank_range sample_runtime (lit "5-x") = no_range.
Proof.
  assert (@en_dash_is_punctuation sample_runtime) as Hdash by (split; reflexivity).
  destruct (@parse_rank_range_failure sample_runtime Hdash)
    as (_ & _ & Hmany & Hpart & _).
  split_and!; [exact Hdash | |].
  - apply Hmany. vm_compute. lia.
  - apply (Hpart _ (lit "5") (lit "x") ValueError); [reflexivity | by right].
Defined.

Lemma build_rank_range_df_no_rows_raises_witness :
  has_column no_rows_scenario (lit "X") = true
  ∧ @build_rank_range_df sample_runtime sample_pandas no_rows_scenario (lit "X")
    = Raise ValueError.
Proof.
  split; [reflexivity|].
  destruct (@build_rank_range_df_no_rows_raises sample_runtime sample_pandas
              no_rows_scenario (lit "X")) as [[Hraises _] _]; [reflexivity|].
  apply Hraises. intros r Hr. by apply elem_of_nil in Hr.
Defined.

Lemma negative_rank_rejected_witness :
  Forall (λ c, is_ascii_digit c = true) (lit "5")
  ∧ @parse_rank_range sample_runtime (lit "-5") = no_range
  ∧ @parse_rank_range sample_runtime (str_of_int (-5)) = no_range.
Proof.
  assert (Forall (λ c, is_ascii_digit c = true) (lit "5")) as Hds
    by by repeat constructor.
  destruct (@negative_rank_rejected sample_runtime sample_pandas) as (Htext & Hint & _).
  split_and!; [exact Hds | apply (Htext (lit "5") Hds) | apply Hint; lia].
Defined.

Lemma extras_spec_witness :
  lit "C" ∈ names table_ABC
  ∧ lit "C" ∈ extras table_ABC {[ lit "A"; lit "B" ]} NJIT_NAME.
Proof.
  assert (lit "C" ∈ names table_ABC) as Hin.
  { unfold names, table_ABC, table_of. simpl. do 2 right. by left. }
  split; [exact Hin|].
  apply (extras_spec table_ABC {[ lit "A"; lit "B" ]} NJIT_NAME).
  split_and!; [exact Hin | | done].
  rewrite not_elem_of_union, !not_elem_of_singleton. by split.
Defined.

Lemma get_filtered_combined_df_spec_witness :
  has_column region_scenario NEW_JERSEY_UNIVERSITY = true
  ∧ ∃ d, get_filtered_combined_df region_scenario {[ lit "A"; lit "B" ]} (lit "Yes") = Ok d
         ∧ rows d = [row_of "A" 2023 [("New_Jersey_University"%string, Str (lit "Yes"))]].
Proof.
  split; [reflexivity|].
  destruct (get_filtered_combined_df_spec region_scenario {[ lit "A"; lit "B" ]}
              InRegionOnly) as (_ & _ & d & Hd & _ & Hrows & _).
  { intros _. reflexivity. }
  exists d. split; [exact Hd|]. rewrite Hrows. reflexivity.
Defined.

Lemma get_metric_value_total_witness :
  get_metric_value rank_scenario (lit "B") (lit "X") = Str N_A
  ∧ get_metric_value rank_scenario (lit "A") (lit "Y") = Str N_A
  ∧ get_metric_value rank_scenario (lit "A") (lit "X") = Str (lit "501-600").
Proof.
  split_and!.
  - destruct (get_metric_value_total rank_scenario (lit "B") (lit "X"))
      as (_ & Habsent & _).
    apply Habsent. unfold names, rank_scenario, table_of. simpl.
    rewrite !not_elem_of_cons. split_and!; try done. apply not_elem_of_nil.
  - destruct (get_metric_value_total rank_scenario (lit "A") (lit "Y"))
      as (_ & _ & Hcolumn & _).
    apply Hcolumn. reflexivity.
  - destruct (get_metric_value_total rank_scenario (lit "A") (lit "X"))
      as (_ & _ & _ & _ & Hvalue).
    apply (Hvalue (row_of "A" 2021 [("X"%string, Str (lit "501-600"))]));
      reflexivity.
Defined.

(** * Further properties of the script *)

(** ** Sidebar years *)

Lemma StronglySorted_le_lt (l : list Z) :
  StronglySorted Z.le l → NoDup l → StronglySorted Z.lt l.
Proof.
  induction 1 as [|x l Hl IH Hx]; intros Hnd; [constructor|].
  apply NoDup_cons in Hnd as [Hnot Hnd]. constructor; [by apply IH|].
  rewrite Forall_forall in Hx |- *. intros y Hy. specialize (Hx y Hy).
  assert (x ≠ y) by (intros ->; done). lia.
Qed.

(** The years offered in the sidebar are exactly the years that occur in one
    of the four tables, each once, in strictly ascending order. *)
Theorem sidebar_years_spec times_df qs_df usn_df washington_df :
  (∀ y, y ∈ sidebar_years times_df qs_df usn_df washington_df
        ↔ y ∈ years times_df ∨ y ∈ years qs_df
          ∨ y ∈ years usn_df ∨ y ∈ years washington_df)
  ∧ StronglySorted Z.lt (sidebar_years times_df qs_df usn_df washington_df).
Proof.
  unfold sidebar_years, sorted_ints. split.
  - intros y. rewrite merge_sort_Permutation, elem_of_elements.
    rewrite !elem_of_union, !elem_of_list_to_set, !elem_of_unique. tauto.
  - apply StronglySorted_le_lt.
    + apply StronglySorted_merge_sort; apply _.
    + rewrite merge_sort_Permutation. apply NoDup_elements.
Qed.

(** ** Filters *)

(** The global filter keeps exactly the rows of the given universities in the
    selected years, in their order and with the columns of the table; with no
    selected year, or no university, nothing is left. *)
Theorem filter_years_names_spec df :
  (∀ selected_years unis r,
     r ∈ rows (filter_years_names df selected_years unis)
     ↔ r ∈ rows df ∧ Year r ∈ selected_years ∧ IPEDS_Name r ∈ unis)
  ∧ (∀ selected_years unis,
       rows (filter_years_names df selected_years unis) `sublist_of` rows df
       ∧ columns (filter_years_names df selected_years unis) = columns df)
  ∧ (∀ unis, rows (filter_years_names df [] unis) = [])
  ∧ (∀ selected_years, rows (filter_years_names df selected_years []) = []).
Proof.
  unfold filter_years_names, select. simpl. split_and!.
  - intros selected_years unis r. rewrite list_elem_of_filter. tauto.
  - intros selected_years unis. split; [apply sublist_filter | done].
  - intros unis. induction (rows df) as [|r l IH]; [done|].
    rewrite filter_cons_False; [done|]. intros [Hy _]. by apply elem_of_nil in Hy.
  - intros selected_years. induction (rows df) as [|r l IH]; [done|].
    rewrite filter_cons_False; [done|]. intros [_ Hu]. by apply elem_of_nil in Hu.
Qed.

(** The regional filter: under "Yes" and "No" a table without the flag column
    raises [KeyError]; any other choice behaves like "All"; no row passes both
    "Yes" and "No", and a row whose flag is missing passes neither. *)
Theorem get_filtered_combined_df_edges combined_df common_universities :
  (has_column combined_df NEW_JERSEY_UNIVERSITY = false →
     get_filtered_combined_df combined_df common_universities (lit "Yes") = Raise KeyError
     ∧ get_filtered_combined_df combined_df common_universities (lit "No") = Raise KeyError)
  ∧ (∀ nj_filter, nj_filter ≠ lit "Yes" → nj_filter ≠ lit "No" →
       get_filtered_combined_df combined_df common_universities nj_filter
       = get_filtered_combined_df combined_df common_universities (lit "All"))
  ∧ (∀ in_region out_of_region r,
       get_filtered_combined_df combined_df common_universities (lit "Yes") = Ok in_region →
       get_filtered_combined_df combined_df common_universities (lit "No") = Ok out_of_region →
       (r ∈ rows in_region → r ∉ rows out_of_region)
       ∧ (notna (cell_at r NEW_JERSEY_UNIVERSITY) = false →
          (r ∉ rows in_region) ∧ (r ∉ rows out_of_region))).
Proof.
  unfold get_filtered_combined_df, column. split_and!.
  - intros Hcol. simpl. by rewrite has_column_select, Hcol.
  - intros nj_filter Hyes Hno. simpl. by rewrite !decide_False by done.
  - intros in_region out_of_region r. simpl. rewrite !has_column_select.
    destruct (has_column combined_df NEW_JERSEY_UNIVERSITY); [|done]. simpl.
    intros [= <-] [= <-]. unfold select, cell_is. simpl.
    rewrite !list_elem_of_filter. split.
    + intros [Hy _] [Hn _]. rewrite Hy in Hn. discriminate.
    + intros Hna. split; intros [Hflag _]; by rewrite Hflag in Hna.
Qed.

Lemma get_filtered_combined_df_edges_witness :
  has_column table_ABC NEW_JERSEY_UNIVERSITY = false
  ∧ get_filtered_combined_df table_ABC {[ lit "A" ]} (lit "Yes") = Raise KeyError.
Proof.
  split; [reflexivity|].
  destruct (get_filtered_combined_df_edges table_ABC {[ lit "A" ]}) as (Hkey & _).
  apply Hkey. reflexivity.
Defined.

(** ** Metric lookup *)

(** A KPI is never a missing value: whatever the table, the university and
    the column, [get_metric_value] returns something [pd.notna] accepts. *)
Theorem get_metric_value_notna df university col :
  notna (get_metric_value df university col) = true.
Proof.
  rewrite get_metric_value_refines. unfold get_metric.
  destruct (first_row df university) as [r|]; [|done].
  destruct (has_column df col); simpl; [|done].
  by destruct (notna (cell_at r col)) eqn:E.
Qed.

(** ** Selection boxes *)

Lemma names_pd_concat frames : names (pd_concat frames) = mjoin (names <$> frames).
Proof.
  unfold names, pd_concat. simpl. induction frames as [|df frames IH]; [done|].
  rewrite !fmap_cons. simpl. by rewrite fmap_app, <- IH.
Qed.

Lemma elem_of_names_combined times_df qs_df usn_df washington_df x :
  x ∈ names (combined_df times_df qs_df usn_df washington_df)
  ↔ x ∈ names times_df ∨ x ∈ names qs_df ∨ x ∈ names usn_df ∨ x ∈ names washington_df.
Proof.
  unfold combined_df. rewrite names_pd_concat. simpl.
  rewrite !elem_of_app, elem_of_nil. tauto.
Qed.

Lemma elem_of_names_select (P : Row → Prop) `{!∀ r, Decision (P r)} df x :
  x ∈ names (select P df) ↔ ∃ r, r ∈ rows df ∧ P r ∧ IPEDS_Name r = x.
Proof.
  rewrite elem_of_names. unfold select. simpl. split.
  - intros (r & [? ?]%list_elem_of_filter & ?). by exists r.
  - intros (r & ? & ? & ?). exists r. by rewrite list_elem_of_filter.
Qed.

(** Whatever the regional filter keeps is a row of a common university. *)
Lemma get_filtered_combined_df_rows combined common_universities nj_filter d r :
  get_filtered_combined_df combined common_universities nj_filter = Ok d →
  r ∈ rows d → r ∈ rows combined ∧ IPEDS_Name r ∈ common_universities.
Proof.
  unfold get_filtered_combined_df, column. rewrite !has_column_select.
  destruct (decide (nj_filter = lit "Yes")); [|destruct (decide (nj_filter = lit "No"))].
  - destruct (has_column combined NEW_JERSEY_UNIVERSITY); [|done]. simpl.
    intros [= <-]. unfold select. simpl. rewrite !list_elem_of_filter. tauto.
  - destruct (has_column combined NEW_JERSEY_UNIVERSITY); [|done]. simpl.
    intros [= <-]. unfold select. simpl. rewrite !list_elem_of_filter. tauto.
  - intros [= <-]. unfold select. simpl. rewrite !list_elem_of_filter. tauto.
Qed.

Lemma elem_of_common_universities_filtered d x :
  x ∈ common_universities_filtered d ↔ x ∈ names d ∧ x ≠ NJIT_NAME.
Proof.
  unfold common_universities_filtered.
  rewrite elem_of_sorted, list_elem_of_filter, elem_of_unique. tauto.
Qed.

Lemma common_universities_filtered_all_iff times_df qs_df usn_df washington_df x :
  let common := get_common_universities times_df qs_df usn_df washington_df in
  x ∈ common_universities_filtered
        (select (λ r, IPEDS_Name r ∈ common)
           (combined_df times_df qs_df usn_df washington_df))
  ↔ x ∈ common ∧ x ≠ NJIT_NAME.
Proof.
  intros common. rewrite elem_of_common_universities_filtered, elem_of_names_select.
  split.
  - by intros [(r & _ & Hr & <-) ?].
  - intros [Hx ?]. split; [|done].
    assert (x ∈ names (combined_df times_df qs_df usn_df washington_df))
      as (r & Hr & <-)%elem_of_names.
    { apply elem_of_names_combined. left. revert Hx.
      unfold common, get_common_universities.
      rewrite !elem_of_intersection, !elem_of_list_to_set. tauto. }
    by exists r.
Qed.

(** With the regional filter on "All", the global selection box offers
    exactly the universities that occur in all four tables, the anchor
    excepted. *)
Theorem common_universities_filtered_all times_df qs_df usn_df washington_df :
  ∃ d, get_filtered_combined_df (combined_df times_df qs_df usn_df washington_df)
         (get_common_universities times_df qs_df usn_df washington_df) (lit "All")
       = Ok d
       ∧ ∀ x, x ∈ common_universities_filtered d
              ↔ x ∈ get_common_universities times_df qs_df usn_df washington_df
                ∧ x ≠ NJIT_NAME.
Proof.
  eexists. split; [reflexivity|]. intros x.
  apply common_universities_filtered_all_iff.
Qed.

(** Under every regional filter, each option of the global selection box is
    a common university other than the anchor, so it has a row in each of
    the four tables; the options are sorted and without repetition. *)
Theorem common_universities_filtered_sound times_df qs_df usn_df washington_df
    nj_filter d :
  get_filtered_combined_df (combined_df times_df qs_df usn_df washington_df)
    (get_common_universities times_df qs_df usn_df washington_df) nj_filter = Ok d →
  (∀ x, x ∈ common_universities_filtered d →
        x ≠ NJIT_NAME ∧ x ∈ names times_df ∧ x ∈ names qs_df
        ∧ x ∈ names usn_df ∧ x ∈ names washington_df)
  ∧ StronglySorted str_le (common_universities_filtered d)
  ∧ NoDup (common_universities_filtered d).
Proof.
  intros Hd. split_and!.
  - intros x [(r & Hr & <-)%elem_of_names ?]%elem_of_common_universities_filtered.
    apply (get_filtered_combined_df_rows _ _ _ _ _ Hd) in Hr as [_ Hr].
    revert Hr. unfold get_common_universities.
    rewrite !elem_of_intersection, !elem_of_list_to_set. tauto.
  - apply sorted_ascending.
  - apply sorted_NoDup, NoDup_filter, NoDup_unique.
Qed.

Lemma common_universities_filtered_sound_witness :
  lit "C" ≠ NJIT_NAME ∧ lit "C" ∈ names region_scenario.
Proof.
  pose (combined := combined_df region_scenario region_scenario region_scenario
                      region_scenario).
  pose (common := get_common_universities region_scenario region_scenario
                    region_scenario region_scenario).
  assert (lit "C" ∈ names region_scenario) as HC.
  { unfold names, region_scenario, table_of. simpl. do 2 right. by left. }
  assert (lit "C" ∈ common) as Hcommon.
  { unfold common, get_common_universities.
    rewrite !elem_of_intersection, !elem_of_list_to_set. by split_and!. }
  destruct (common_universities_filtered_sound region_scenario region_scenario
              region_scenario region_scenario (lit "Yes")
              (filter_combined combined common InRegionOnly))
    as (Hsound & _).
  - apply (get_filtered_combined_df_refines combined common InRegionOnly).
    intros _. reflexivity.
  - destruct (Hsound (lit "C")) as (? & ? & _); [|done].
    apply elem_of_common_universities_filtered. split; [|done].
    apply elem_of_names_select.
    exists (row_of "C" 2023 [("New_Jersey_University"%string, Str (lit "Yes"))]).
    split; [|split; [|done]].
    + unfold combined, combined_df, pd_concat, region_scenario, table_of. simpl.
      do 2 right. by left.
    + split; [exact Hcommon | reflexivity].
Defined.

Lemma elem_of_extras df common_universities anchor x :
  x ∈ extras df common_universities anchor
  ↔ x ∈ names df ∧ (x ∉ common_universities) ∧ x ≠ anchor.
Proof.
  unfold extras. rewrite elem_of_sorted, list_elem_of_filter, elem_of_unique. tauto.
Qed.

(** The two selection boxes never offer the same university: an extra of an
    agency is not an option of the global box, under any regional filter.
    With the filter on "All" they leave nobody out: every university of a
    table is the anchor, an option of the global box, or an extra of that
    table. *)
Theorem selection_boxes_partition times_df qs_df usn_df washington_df :
  let common := get_common_universities times_df qs_df usn_df washington_df in
  let combined := combined_df times_df qs_df usn_df washington_df in
  (∀ nj_filter d df x,
     get_filtered_combined_df combined common nj_filter = Ok d →
     x ∈ extras df common NJIT_NAME → x ∉ common_universities_filtered d)
  ∧ (∀ df x,
       x ∈ names df →
       x = NJIT_NAME
       ∨ x ∈ common_universities_filtered (select (λ r, IPEDS_Name r ∈ common) combined)
       ∨ x ∈ extras df common NJIT_NAME).
Proof.
  intros common combined. split.
  - intros nj_filter d df x Hd (_ & Hnot & _)%elem_of_extras
      [(r & Hr & <-)%elem_of_names _]%elem_of_common_universities_filtered.
    by apply (get_filtered_combined_df_rows _ _ _ _ _ Hd) in Hr as [_ Hr].
  - intros df x Hx. destruct (decide (x = NJIT_NAME)) as [|Hne]; [by left | right].
    destruct (decide (x ∈ common)) as [Hin|Hnot].
    + left. by apply common_universities_filtered_all_iff.
    + right. by apply elem_of_extras.
Qed.

Lemma selection_boxes_partition_witness :
  lit "C" ∈ names table_ABC
  ∧ (lit "C" = NJIT_NAME
     ∨ lit "C" ∈ common_universities_filtered
         (select (λ r, IPEDS_Name r ∈ get_common_universities table_ABC table_AB
                                         table_ABC table_AB)
            (combined_df table_ABC table_AB table_ABC table_AB))
     ∨ lit "C" ∈ extras table_ABC
         (get_common_universities table_ABC table_AB table_ABC table_AB) NJIT_NAME).
Proof.
  assert (lit "C" ∈ names table_ABC) as HC.
  { unfold names, table_ABC, table_of. simpl. do 2 right. by left. }
  split; [exact HC|].
  by apply (selection_boxes_partition table_ABC table_AB table_ABC table_AB).
Defined.

(** The university a tab compares the anchor with is the global choice or
    an extra of the tab's agency, and it is never the anchor itself. *)
Theorem final_times_uni_spec df common_universities global_selected_uni times_selected_uni :
  global_selected_uni ≠ NJIT_NAME →
  times_selected_uni ∈ tab_options (extras df common_universities NJIT_NAME) →
  final_times_uni global_selected_uni times_selected_uni ≠ NJIT_NAME
  ∧ (final_times_uni global_selected_uni times_selected_uni = global_selected_uni
     ∨ final_times_uni global_selected_uni times_selected_uni
       ∈ extras df common_universities NJIT_NAME).
Proof.
  intros Hglobal Hsel. unfold final_times_uni, tab_options in *.
  destruct (decide (times_selected_uni = GLOBAL_SELECTED)) as [->|Hne].
  - split; [done | by left].
  - apply elem_of_cons in Hsel as [? | Hsel]; [done|]. split; [|by right].
    by apply elem_of_extras in Hsel as (_ & _ & ?).
Qed.

Lemma final_times_uni_spec_witness :
  lit "A" ≠ NJIT_NAME
  ∧ lit "C" ∈ tab_options (extras table_ABC {[ lit "A"; lit "B" ]} NJIT_NAME)
  ∧ final_times_uni (lit "A") (lit "C") ≠ NJIT_NAME.
Proof.
  assert (lit "C" ∈ tab_options (extras table_ABC {[ lit "A"; lit "B" ]} NJIT_NAME))
    as Hsel.
  { right. apply elem_of_extras. split_and!; [| |done].
    - unfold names, table_ABC, table_of. simpl. do 2 right. by left.
    - rewrite not_elem_of_union, !not_elem_of_singleton. by split. }
  split_and!; [done | exact Hsel |].
  by apply (final_times_uni_spec table_ABC {[ lit "A"; lit "B" ]} (lit "A") (lit "C")).
Defined.

(** ** Latest year and KPIs *)

Lemma py_max_ext (l1 l2 : list Z) :
  (∀ y, y ∈ l1 ↔ y ∈ l2) → py_max l1 = py_max l2.
Proof.
  intros Heq. pose proof (py_max_spec l1) as H1. pose proof (py_max_spec l2) as H2.
  destruct (py_max l1) as [m1|], (py_max l2) as [m2|].
  - destruct H1 as [Hin1 Hmax1], H2 as [Hin2 Hmax2]. f_equal.
    apply Heq in Hin1. apply Heq in Hin2.
    specialize (Hmax1 _ Hin2). specialize (Hmax2 _ Hin1). lia.
  - destruct H1 as [Hin1 _]. apply Heq in Hin1. subst. by apply elem_of_nil in Hin1.
  - destruct H2 as [Hin2 _]. apply Heq in Hin2. subst. by apply elem_of_nil in Hin2.
  - done.
Qed.

(** On a table filtered by the selected years, the Overview tab and the
    agency tabs compute the same latest year. *)
Theorem latest_years_agree df selected_years unis :
  latest_years (filter_years_names df selected_years unis)
  = latest_times_year selected_years (filter_years_names df selected_years unis).
Proof.
  unfold latest_years, latest_times_year. apply py_max_ext. intros y.
  rewrite list_elem_of_filter. split; [|tauto].
  intros Hy. split; [done|]. rewrite elem_of_unique in Hy.
  by apply filter_years_names_years in Hy.
Qed.

Lemma first_row_rows_of_year filtered year university r :
  first_row (rows_of_year filtered year) university = Some r →
  r ∈ rows filtered ∧ year = Some (Year r) ∧ IPEDS_Name r = university.
Proof.
  unfold first_row, rows_of_year, select. simpl. intros Hhead.
  apply head_Some_elem_of in Hhead.
  apply list_elem_of_filter in Hhead as [? Hr].
  apply list_elem_of_filter in Hr as [? ?]. done.
Qed.

(** What a KPI of a given year shows. *)
Lemma kpi_of_year filtered year university col :
  (year = None → get_metric_value (rows_of_year filtered year) university col = Str N_A)
  ∧ ((∀ r, r ∈ rows filtered → IPEDS_Name r = university → year ≠ Some (Year r)) →
     get_metric_value (rows_of_year filtered year) university col = Str N_A)
  ∧ (get_metric_value (rows_of_year filtered year) university col ≠ Str N_A →
     ∃ r, r ∈ rows filtered ∧ year = Some (Year r) ∧ IPEDS_Name r = university
          ∧ cell_at r col = get_metric_value (rows_of_year filtered year) university col).
Proof.
  rewrite get_metric_value_refines. unfold get_metric.
  destruct (first_row (rows_of_year filtered year) university) as [r|] eqn:Hfirst.
  - apply first_row_rows_of_year in Hfirst as (Hr & Hyear & Hname). split_and!.
    + intros ->. discriminate.
    + intros Hno. by destruct (Hno r Hr Hname).
    + destruct (has_column _ col && notna (cell_at r col)); [|done].
      intros _. by exists r.
  - by split_and!.
Qed.

(** KPIs are read in the latest year only. With no latest year every KPI
    shows "N/A"; a university without a row in the latest year shows "N/A"
    even when it has rows in earlier years; and a KPI that shows a value
    shows the value of a row of that university in the latest year. This
    holds in the agency tabs and in the Overview tab alike. *)
Theorem kpi_latest_year_only selected_years filtered university col :
  (latest_times_year selected_years filtered = None →
     tab_kpi selected_years filtered university col = Str N_A)
  ∧ ((∀ r, r ∈ rows filtered → IPEDS_Name r = university →
           latest_times_year selected_years filtered ≠ Some (Year r)) →
     tab_kpi selected_years filtered university col = Str N_A)
  ∧ (tab_kpi selected_years filtered university col ≠ Str N_A →
     ∃ r, r ∈ rows filtered ∧ IPEDS_Name r = university
          ∧ latest_times_year selected_years filtered = Some (Year r)
          ∧ cell_at r col = tab_kpi selected_years filtered university col)
  ∧ (latest_years filtered = None → overview_kpi filtered university col = Str N_A)
  ∧ ((∀ r, r ∈ rows filtered → IPEDS_Name r = university →
           latest_years filtered ≠ Some (Year r)) →
     overview_kpi filtered university col = Str N_A)
  ∧ (overview_kpi filtered university col ≠ Str N_A →
     ∃ r, r ∈ rows filtered ∧ IPEDS_Name r = university
          ∧ latest_years filtered = Some (Year r)
          ∧ cell_at r col = overview_kpi filtered university col).
Proof.
  unfold tab_kpi, overview_kpi.
  destruct (kpi_of_year filtered (latest_times_year selected_years filtered)
              university col) as (Hnone & Habsent & Hvalue).
  destruct (kpi_of_year filtered (latest_years filtered) university col)
    as (Hnone' & Habsent' & Hvalue').
  split_and!; [done | done | | done | done |].
  - intros (r & ? & ? & ? & ?)%Hvalue. by exists r.
  - intros (r & ? & ? & ? & ?)%Hvalue'. by exists r.
Qed.

Lemma kpi_latest_year_only_witness :
  latest_times_year [] rank_scenario = None
  ∧ tab_kpi [] rank_scenario (lit "A") (lit "X") = Str N_A.
Proof.
  split; [reflexivity|].
  destruct (kpi_latest_year_only [] rank_scenario (lit "A") (lit "X")) as (Hnone & _).
  apply Hnone. reflexivity.
Defined.

(** When there is a latest year, some row of the table carries it: the KPI
    rows of a non-empty selection are never empty. *)
Theorem kpi_row_not_empty selected_years filtered m :
  (latest_times_year selected_years filtered = Some m →
     rows (rows_of_year filtered (Some m)) ≠ [])
  ∧ (latest_years filtered = Some m → rows (rows_of_year filtered (Some m)) ≠ []).
Proof.
  assert (∀ m, m ∈ years filtered → rows (rows_of_year filtered (Some m)) ≠ []) as Hrow.
  { intros y (r & -> & Hr)%list_elem_of_fmap Hnil.
    assert (r ∈ rows (rows_of_year filtered (Some (Year r)))) as Hin
      by (unfold rows_of_year, select; simpl; by apply list_elem_of_filter).
    rewrite Hnil in Hin. by apply elem_of_nil in Hin. }
  split; intros Hlatest; apply Hrow.
  - unfold latest_times_year in Hlatest.
    pose proof (py_max_spec
      (filter (λ y, y ∈ unique (years filtered)) selected_years)) as Hmax.
    rewrite Hlatest in Hmax. destruct Hmax as [Hin _].
    apply list_elem_of_filter in Hin as [Hin _]. by rewrite elem_of_unique in Hin.
  - unfold latest_years in Hlatest.
    pose proof (py_max_spec (unique (years filtered))) as Hmax.
    rewrite Hlatest in Hmax. destruct Hmax as [Hin _]. by rewrite elem_of_unique in Hin.
Qed.

Lemma kpi_row_not_empty_witness :
  latest_years rank_scenario = Some 2024%Z
  ∧ rows (rows_of_year rank_scenario (Some 2024%Z)) ≠ [].
Proof.
  split; [reflexivity|].
  destruct (kpi_row_not_empty [] rank_scenario 2024%Z) as (_ & Hoverview).
  apply Hoverview. reflexivity.
Defined.

(** ** More on the rank normaliser *)

Lemma replace_no_old old new s : old ≠ new → old ∉ replace old new s.
Proof.
  intros Hne. unfold replace. intros (c & Hc & _)%list_elem_of_fmap.
  destruct (N.eqb_spec c old); congruence.
Qed.

Section MoreParseFacts.
Context `{PyRuntime}.

(** The en-dash and the hyphen are interchangeable everywhere in a rank
    text: writing every en-dash as a hyphen does not change the answer. *)
Theorem parse_rank_range_dash_insensitive s :
  en_dash_is_punctuation →
  parse_rank_range (replace EN_DASH HYPHEN s) = parse_rank_range s.
Proof.
  intros Hdash. set (t := replace EN_DASH HYPHEN s).
  assert (replace EN_DASH HYPHEN t = t) as Ht
    by (apply replace_id, replace_no_old; done).
  unfold parse_rank_range, parse_rank_range_try. rewrite Ht. fold t.
  destruct (split HYPHEN t) as [|p0 [|p1 [|p2 ps]]] eqn:E.
  - by apply split_not_nil in E.
  - apply single_part_is_input in E as Hs. subst p0.
    pose proof (split_single _ _ _ E) as Hst. by rewrite <- Hst.
  - done.
  - destruct (py_int t) as [v|] eqn:Hv.
    { apply many_parts_raise in Hv; [done | done |]. rewrite Ht, E. simpl. lia. }
    destruct (py_int s) as [v|] eqn:Hv'; [|done].
    apply many_parts_raise in Hv'; [done | done |]. fold t. rewrite E. simpl. lia.
Qed.

Lemma parse_rank_range_mid_half s low high mid :
  parse_rank_range s = (Some low, Some high, Some mid) →
  (low + high - 1 ≤ 2 * mid ≤ low + high)%Z.
Proof.
  unfold parse_rank_range, parse_rank_range_try.
  assert (∀ a b : Z, a + b - 1 ≤ 2 * ((a + b) `div` 2) ≤ a + b)%Z as Hdiv.
  { intros a b. pose proof (Z.div_mod (a + b) 2). pose proof (Z.mod_pos_bound (a + b) 2).
    lia. }
  destruct (split HYPHEN (replace EN_DASH HYPHEN s)) as [|p0 [|p1 [|p2 ps]]].
  - destruct (py_int s); [|done]. simpl. intros [= <- <- <-]. lia.
  - destruct (py_int s); [|done]. simpl. intros [= <- <- <-]. lia.
  - destruct (py_int p0) as [a|]; [|done]. destruct (py_int p1) as [b|]; [|done].
    simpl. intros [= <- <- <-]. apply Hdiv.
  - destruct (py_int s); [|done]. simpl. intros [= <- <- <-]. lia.
Qed.

(** The midpoint is the half of [low + high], rounded down; with
    [low ≤ high] it lies between the two, and with reversed bounds, which the
    parser does not reorder, between them the other way round. *)
Theorem parse_rank_range_mid_bounds s low high mid :
  parse_rank_range s = (Some low, Some high, Some mid) →
  (low + high - 1 ≤ 2 * mid ≤ low + high)%Z
  ∧ (low ≤ high → low ≤ mid ≤ high)%Z
  ∧ (high ≤ low → high ≤ mid ≤ low)%Z.
Proof. intros Hhalf%parse_rank_range_mid_half. lia. Qed.

End MoreParseFacts.

Lemma parse_rank_range_dash_insensitive_witness :
  @en_dash_is_punctuation sample_runtime
  ∧ @parse_rank_range sample_runtime (replace EN_DASH HYPHEN (lit "7" ++ [EN_DASH] ++ lit "9"))
    = @parse_rank_range sample_runtime (lit "7" ++ [EN_DASH] ++ lit "9").
Proof.
  assert (@en_dash_is_punctuation sample_runtime) as Hdash by (split; reflexivity).
  split; [exact Hdash|].
  apply (@parse_rank_range_dash_insensitive sample_runtime _ Hdash).
Defined.

Lemma parse_rank_range_mid_bounds_witness :
  @parse_rank_range sample_runtime (lit "501-602") = (Some 501, Some 602, Some 551)%Z
  ∧ (501 + 602 - 1 ≤ 2 * 551 ≤ 501 + 602)%Z.
Proof.
  assert (@parse_rank_range sample_runtime (lit "501-602")
          = (Some 501, Some 602, Some 551)%Z) as Hparse by reflexivity.
  split; [exact Hparse|].
  apply (@parse_rank_range_mid_bounds sample_runtime _ _ _ _ Hparse).
Defined.

(** ** Integers written by [str] and read by [int] *)

Section IntRoundTrip.
Context `{PyRuntime}.

Lemma scan_uint_pos d acc a n :
  acc = Npos a →
  scan_digits false acc n (lit (NilEmpty.string_of_uint d))
  = Ok (Npos (Pos.of_uint_acc d a), (n + Decimal.nb_digits d)%nat, []).
Proof.
  revert acc a n. induction d; intros acc a n ->; simpl;
    [ by rewrite Nat.add_0_r
    | match goal with
      | |- scan_digits false ?e _ _ = Ok (N.pos (Pos.of_uint_acc _ ?b), _, _) =>
          rewrite (IHd e b) by lia
      end; by rewrite Nat.add_succ_r .. ].
Qed.

Lemma scan_uint_0 d acc n :
  acc = 0%N →
  scan_digits false acc n (lit (NilEmpty.string_of_uint d))
  = Ok (Pos.of_uint d, (n + Decimal.nb_digits d)%nat, []).
Proof.
  revert acc n. induction d; intros acc n ->; simpl;
    [ by rewrite Nat.add_0_r
    | rewrite IHd by lia; by rewrite Nat.add_succ_r
    | match goal with
      | |- scan_digits false ?e _ _ = Ok (N.pos (Pos.of_uint_acc _ ?b), _, _) =>
          rewrite (scan_uint_pos d e b) by lia
      end; by rewrite Nat.add_succ_r .. ].
Qed.

Lemma uint_length d : length (lit (NilEmpty.string_of_uint d)) = Decimal.nb_digits d.
Proof. induction d; simpl; [done | f_equal; apply IHd ..]. Qed.

Lemma digits_ascii_buffer (a : pystr) :
  Forall (λ c, is_ascii_digit c = true ∨ c = HYPHEN) a → ascii_buffer a = a.
Proof.
  intros Ha. unfold ascii_buffer.
  assert (forallb (λ c, (c <? 128)%N) a = true) as ->; [|done].
  apply forallb_forall. intros c Hc%list_elem_of_In.
  rewrite Forall_forall in Ha. apply N.ltb_lt.
  destruct (Ha c Hc) as [Hd | ->]; [|done].
  unfold is_ascii_digit in Hd. apply andb_true_iff in Hd as [_ ?%N.leb_le]. lia.
Qed.

(** A run of digits reads as its value, with or without a hyphen in front,
    as long as it stays within the length that is never limited. *)
Lemma long_from_string_uint d (negative : bool) :
  d ≠ Decimal.Nil →
  (Decimal.nb_digits d ≤ str_digits_check_threshold)%nat →
  long_from_string ((if negative then [HYPHEN] else [])
                    ++ lit (NilEmpty.string_of_uint d))
  = Ok (if negative then (- Z.of_N (Pos.of_uint d))%Z else Z.of_N (Pos.of_uint d)).
Proof.
  intros Hd Hlen. pose proof (scan_uint_0 d 0%N 0 eq_refl) as Hscan.
  pose proof (uint_digits d) as Hdigits.
  destruct (lit (NilEmpty.string_of_uint d)) as [|c r] eqn:E.
  { destruct d; done. }
  apply Forall_cons in Hdigits as [Hc _].
  assert (is_ascii_space c = false ∧ (c =? PLUS)%N = false
          ∧ (c =? HYPHEN)%N = false ∧ (c =? UNDERSCORE)%N = false)
    as (Hspace & Hplus & Hhyphen & Hunder).
  { unfold is_ascii_digit in Hc. apply andb_true_iff in Hc as [?%N.leb_le ?%N.leb_le].
    unfold is_ascii_space, PLUS, HYPHEN, UNDERSCORE.
    split_and!; [apply orb_false_iff; split; [apply andb_false_iff; right|] | ..];
      first [apply N.leb_gt | apply N.eqb_neq]; lia. }
  assert (exceeds_digit_limit (Decimal.nb_digits d) = false) as Hlimit.
  { unfold exceeds_digit_limit.
    assert ((str_digits_check_threshold <? Decimal.nb_digits d)%nat = false) as ->
      by (apply Nat.ltb_ge; lia). done. }
  assert ((Decimal.nb_digits d =? 0)%nat = false) as Hnz.
  { apply Nat.eqb_neq. by destruct d. }
  simpl in Hscan. unfold long_from_string. destruct negative; simpl.
  - rewrite Hscan, Hunder. simpl. by rewrite Hnz, Hlimit.
  - rewrite Hspace, Hplus, Hhyphen. simpl.
    rewrite Hscan, Hunder. simpl. by rewrite Hnz, Hlimit.
Qed.

Lemma py_int_str_of_int z :
  (length (str_of_int z) ≤ str_digits_check_threshold)%nat →
  py_int (str_of_int z) = Ok z.
Proof.
  intros Hlen. destruct z as [|p|p].
  - reflexivity.
  - unfold py_int.
    change (str_of_int (Z.pos p))
      with (lit (NilEmpty.string_of_uint (Pos.to_uint p))) in *.
    rewrite digits_ascii_buffer
      by (eapply Forall_impl; [apply uint_digits | by left]).
    rewrite uint_length in Hlen.
    assert (Pos.to_uint p ≠ Decimal.Nil) as Hnil.
    { intros Hp. pose proof (DecimalPos.Unsigned.of_to p) as Hof.
      rewrite Hp in Hof. discriminate. }
    pose proof (long_from_string_uint _ false Hnil Hlen) as Hlong.
    simpl in Hlong. rewrite Hlong.
    by rewrite DecimalPos.Unsigned.of_to.
  - unfold py_int, str_of_int in *.
    change (lit (NilEmpty.string_of_int (Z.to_int (Z.neg p))))
      with ([HYPHEN] ++ lit (NilEmpty.string_of_uint (Pos.to_uint p))) in *.
    rewrite digits_ascii_buffer.
    2:{ apply Forall_app. split; [repeat constructor; by right|].
        eapply Forall_impl; [apply uint_digits | by left]. }
    rewrite length_app, uint_length in Hlen. simpl in Hlen.
    assert (Pos.to_uint p ≠ Decimal.Nil) as Hnil.
    { intros Hp. pose proof (DecimalPos.Unsigned.of_to p) as Hof.
      rewrite Hp in Hof. discriminate. }
    rewrite (long_from_string_uint _ true Hnil) by lia.
    by rewrite DecimalPos.Unsigned.of_to.
Qed.

(** [int(str(z))] is [z] for every integer of at most 640 characters, so a
    rank stored as a non-negative number is read back as itself: its range
    is [(z, z, z)]. *)
Theorem int_cell_round_trip z :
  (length (str_of_int z) ≤ str_digits_check_threshold)%nat →
  py_int (str_of_int z) = Ok z
  ∧ ((0 ≤ z)%Z → parse_rank_range (py_str (Int z)) = (Some z, Some z, Some z)).
Proof.
  intros Hlen. pose proof (py_int_str_of_int z Hlen) as Hint. split; [done|].
  intros Hz. simpl. unfold parse_rank_range, parse_rank_range_try.
  assert (Forall (λ c, is_ascii_digit c = true) (str_of_int z)) as Hdigits.
  { destruct z as [|p|p]; [by repeat constructor | apply uint_digits | lia]. }
  assert (∀ c, (57 < c)%N ∨ (c < 48)%N → c ∉ str_of_int z) as Hno.
  { intros c Hc Hin. rewrite Forall_forall in Hdigits. specialize (Hdigits c Hin).
    unfold is_ascii_digit in Hdigits.
    apply andb_true_iff in Hdigits as [?%N.leb_le ?%N.leb_le]. lia. }
  rewrite replace_id by (apply Hno; unfold EN_DASH; lia).
  rewrite split_no_occurrence by (apply Hno; unfold HYPHEN; lia).
  by rewrite Hint.
Qed.

End IntRoundTrip.

Lemma int_cell_round_trip_witness :
  (length (str_of_int 45) ≤ str_digits_check_threshold)%nat
  ∧ @py_int sample_runtime (str_of_int 45) = Ok 45%Z.
Proof.
  assert (length (str_of_int 45) ≤ str_digits_check_threshold)%nat as Hlen
    by (vm_compute; lia).
  split; [exact Hlen|].
  apply (@int_cell_round_trip sample_runtime 45 Hlen).
Defined.

(** ** The rows of a rank-range table *)

Lemma cell_at_set_cells low high mid r :
  let r' := set_cell MID mid (set_cell HIGH high (set_cell LOW low r)) in
  cell_at r' LOW = low ∧ cell_at r' HIGH = high ∧ cell_at r' MID = mid
  ∧ IPEDS_Name r' = IPEDS_Name r ∧ Year r' = Year r.
Proof.
  unfold cell_at, set_cell. simpl. split_and!; try done.
  - rewrite lookup_insert_ne by done. rewrite lookup_insert_ne by done.
    by rewrite lookup_insert_eq.
  - rewrite lookup_insert_ne by done. by rewrite lookup_insert_eq.
  - by rewrite lookup_insert_eq.
Qed.

Lemma elem_of_add_column labels c x : x ∈ add_column labels c ↔ x ∈ labels ∨ x = c.
Proof.
  unfold add_column. destruct (decide (c ∈ labels)) as [Hc|Hc].
  - split; [by left|]. by intros [? | ->].
  - rewrite elem_of_app, list_elem_of_singleton. tauto.
Qed.

Section RankRows.
Context `{PyRuntime} `{PandasRuntime}.

Lemma attach_range_key parsed metric_col r :
  (IPEDS_Name (attach_range parsed metric_col r), Year (attach_range parsed metric_col r))
  = (IPEDS_Name r, Year r).
Proof.
  unfold attach_range. by destruct (parse_rank_range _) as [[low high] mid].
Qed.

Lemma attach_range_present parsed metric_col r :
  stored_numbers_present →
  is_Some (rank_mid (parse_rank_range (py_str (cell_at r metric_col)))) →
  notna (cell_at (attach_range parsed metric_col r) LOW) = true
  ∧ notna (cell_at (attach_range parsed metric_col r) HIGH) = true
  ∧ notna (cell_at (attach_range parsed metric_col r) MID) = true.
Proof.
  intros Hstore. unfold attach_range, rank_mid.
  destruct (parse_rank_range_total (py_str (cell_at r metric_col)))
    as [-> | (l & h & m & ->)]; [by intros [? ?]|]. intros _.
  destruct (cell_at_set_cells (cell_of parsed LOW (Some l)) (cell_of parsed HIGH (Some h))
              (cell_of parsed MID (Some m)) r) as (-> & -> & -> & _).
  simpl. by rewrite !Hstore.
Qed.

(** [build_rank_range_df] raises [KeyError] for a column the table does not
    have, and [ValueError] on a table with the column where every metric is
    missing. On a table with the column and at least one metric that is not
    missing, where the assigned columns store no number as a missing value,
    it returns a table with the labels of the table and [low],
    [high], [mid]; its rows are, in order, exactly the rows whose metric is
    not missing and whose rank has a midpoint, each with the three assigned
    cells, none of which is missing; so the universities and years of its
    rows are a sublist of those of the table. *)
Theorem build_rank_range_df_rows df metric_col :
  (has_column df metric_col = false →
     build_rank_range_df df metric_col = Raise KeyError)
  ∧ (has_column df metric_col = true →
     (∀ r, r ∈ rows df → notna (cell_at r metric_col) = false) →
     build_rank_range_df df metric_col = Raise ValueError)
  ∧ (stored_numbers_present →
     has_column df metric_col = true →
     (∃ r, r ∈ rows df ∧ notna (cell_at r metric_col) = true) →
     ∃ d, build_rank_range_df df metric_col = Ok d
          ∧ (∀ c, has_column d c = true
                  ↔ has_column df c = true ∨ c ∈ [LOW; HIGH; MID])
          ∧ rows d
            = attach_range (parsed_ranges df metric_col) metric_col
                <$> filter (λ r, notna (cell_at r metric_col) = true
                                 ∧ is_Some (rank_mid (parse_rank_range
                                                        (py_str (cell_at r metric_col)))))
                      (rows df)
          ∧ ((λ r, (IPEDS_Name r, Year r)) <$> rows d)
              `sublist_of` ((λ r, (IPEDS_Name r, Year r)) <$> rows df)
          ∧ ∀ r, r ∈ rows d →
                 notna (cell_at r LOW) = true ∧ notna (cell_at r HIGH) = true
                 ∧ notna (cell_at r MID) = true).
Proof.
  split_and!.
  { unfold build_rank_range_df, column. intros ->. done. }
  { apply build_rank_range_df_no_metric. }
  unfold build_rank_range_df, column.
  intros Hstore Hcol (r0 & Hr0 & Hna0). rewrite Hcol. simpl.
  change ((λ r, parse_rank_range (py_str (cell_at r metric_col)))
            <$> filter (λ r, notna (cell_at r metric_col) = true) (rows df))
    with (parsed_ranges df metric_col).
  set (parsed := parsed_ranges df metric_col).
  assert (filter (λ r, notna (cell_at r MID) = true)
            (attach_range parsed metric_col
               <$> filter (λ r, notna (cell_at r metric_col) = true) (rows df))
          = attach_range parsed metric_col
              <$> filter (λ r, notna (cell_at r metric_col) = true
                               ∧ is_Some (rank_mid (parse_rank_range
                                                      (py_str (cell_at r metric_col)))))
                    (rows df)) as Hrows.
  { rewrite filter_fmap_comm, list_filter_filter. f_equal.
    apply list_filter_iff. intros r. split.
    - intros [Hmid ?]. split; [done|]. by apply attach_range_mid_missing in Hmid.
    - intros [? Hmid]. split; [|done]. by apply attach_range_present. }
  destruct parsed as [|rr parsed'] eqn:Hparsed.
  { exfalso. unfold parsed, parsed_ranges in Hparsed.
    apply fmap_nil_inv in Hparsed.
    assert (r0 ∈ filter (λ r, notna (cell_at r metric_col) = true) (rows df)) as Hin
      by by apply list_elem_of_filter.
    rewrite Hparsed in Hin. by apply elem_of_nil in Hin. }
  rewrite <- Hparsed in *. eexists. split; [reflexivity|].
  unfold select. simpl rows. rewrite Hrows. split_and!.
  - intros c. unfold has_column. simpl.
    rewrite !bool_decide_eq_true, !elem_of_cons, !elem_of_add_column, elem_of_nil.
    tauto.
  - done.
  - rewrite <- list_fmap_compose.
    rewrite (list_fmap_ext _ (λ r, (IPEDS_Name r, Year r)))
      by (intros; apply attach_range_key).
    apply fmap_sublist, sublist_filter.
  - intros r (r1 & -> & [[_ Hmid] _]%list_elem_of_filter)%list_elem_of_fmap.
    by apply attach_range_present.
Qed.

End RankRows.

Lemma build_rank_range_df_rows_witness :
  @stored_numbers_present sample_pandas
  ∧ has_column rank_scenario (lit "X") = true
  ∧ ∃ d, @build_rank_range_df sample_runtime sample_pandas rank_scenario (lit "X") = Ok d
         ∧ (λ r, Year r) <$> rows d = [2021; 2022]%Z.
Proof.
  assert (@stored_numbers_present sample_pandas) as Hstore.
  { intros parsed label z. simpl. unfold sample_store_int. by destruct (forallb _ _). }
  split_and!; [exact Hstore | reflexivity |].
  destruct (@build_rank_range_df_rows sample_runtime sample_pandas rank_scenario (lit "X"))
    as (_ & _ & Hrows).
  destruct Hrows as (d & Hd & _ & Hrows & _); [exact Hstore | reflexivity | |].
  { exists (row_of "A" 2021 [("X"%string, Str (lit "501-600"))]).
    split; [by left | reflexivity]. }
  exists d. split; [exact Hd|]. rewrite Hrows. reflexivity.
Defined.

(** ** The KPI grid *)

Lemma grid_row n b :
  filter (λ k, k < n)%nat ((λ j, b + j)%nat <$> seq 0 4) = seq b (Nat.min 4 (n - b)).
Proof.
  assert (∃ m, m = Nat.min 4 (n - b)) as [m Hm] by by eexists.
  rewrite <- Hm. cbn [seq fmap list_fmap].
  rewrite !filter_cons, filter_nil.
  assert (m = 0 ∨ m = 1 ∨ m = 2 ∨ m = 3 ∨ m = 4)%nat
    as [-> | [-> | [-> | [-> | ->]]]] by lia;
    cbn [seq]; repeat case_decide; try lia;
    rewrite ?Nat.add_0_r, ?Nat.add_1_r; try done;
    repeat (f_equal; try lia).
Qed.

Lemma grid_rows_join n c :
  mjoin ((λ i, filter (λ k, k < n)%nat ((λ j, i + j)%nat <$> seq 0 4))
           <$> ((λ k, k * 4)%nat <$> seq 0 c))
  = seq 0 (Nat.min (4 * c) n).
Proof.
  induction c as [|c IH]; [done|].
  rewrite (seq_S c 0), !fmap_app, join_app, IH.
  cbn [mjoin list_join fmap list_fmap]. rewrite app_nil_r, grid_row.
  destruct (decide (4 * c < n)%nat).
  - replace (Nat.min (4 * c) n) with (4 * c)%nat by lia.
    replace (0 + c)%nat with c by lia. replace (c * 4)%nat with (0 + 4 * c)%nat by lia.
    rewrite <- seq_app. f_equal. lia.
  - replace (n - (0 + c) * 4)%nat with 0%nat by lia.
    change (Nat.min 4 0) with 0%nat. cbn [seq]. rewrite app_nil_r. f_equal. lia.
Qed.

(** The KPI loops show every KPI exactly once and in order: read row by row,
    the grid lists the indices [0 .. n-1]; each of its rows holds between one
    and four of them. *)
Theorem kpi_grid_covers n :
  mjoin (kpi_grid n) = seq 0 n
  ∧ Forall (λ row, 1 ≤ length row ≤ 4)%nat (kpi_grid n).
Proof.
  unfold kpi_grid, range_step. split.
  - rewrite grid_rows_join. f_equal.
    pose proof (Nat.div_mod_eq (n + 4 - 1) 4).
    pose proof (Nat.mod_upper_bound (n + 4 - 1) 4). lia.
  - rewrite Forall_fmap, Forall_fmap. apply Forall_forall.
    intros k Hk%list_elem_of_In%in_seq. unfold compose. rewrite grid_row, length_seq.
    pose proof (Nat.div_mod_eq (n + 4 - 1) 4).
    pose proof (Nat.mod_upper_bound (n + 4 - 1) 4). lia.
Qed.

(** ** Facet titles *)

Lemma split_last sep s :
  sep ∈ s →
  ∃ prefix t, last (split sep s) = Some t ∧ s = prefix ++ sep :: t ∧ sep ∉ t.
Proof.
  induction s as [|c r IH]; [by intros ?%elem_of_nil|].
  intros Hin. simpl. destruct (N.eqb_spec c sep) as [->|Hne].
  - pose proof (split_not_nil sep r) as Hnil.
    destruct (decide (sep ∈ r)) as [Hr|Hr].
    + destruct (IH Hr) as (prefix & t & Hlast & -> & Ht).
      exists (sep :: prefix), t. split_and!; [|done|done].
      destruct (split sep (prefix ++ sep :: t)); [done|]. by rewrite last_cons_cons.
    + exists [], r. rewrite split_no_occurrence by done. by split_and!.
  - apply elem_of_cons in Hin as [-> | Hr]; [done|].
    destruct (IH Hr) as (prefix & t & Hlast & Hs & Ht).
    pose proof (split_length sep r) as Hlen.
    pose proof (occurrences_pos _ _ Hr) as Hpos.
    destruct (split sep r) as [|q [|q' qs]]; simpl in Hlen; try lia.
    exists (c :: prefix), t. split_and!; [|by rewrite Hs|done].
    by rewrite last_cons_cons.
Qed.

(** The facet title is what follows the last "=" of the annotation: it holds
    no "=", the annotation ends with "=" and the title; an annotation without
    "=" gets the empty title. *)
Theorem facet_title_spec text :
  (EQUALS ∉ text → facet_title text = [])
  ∧ (EQUALS ∈ text → ∃ prefix, text = prefix ++ EQUALS :: facet_title text)
  ∧ EQUALS ∉ facet_title text.
Proof.
  unfold facet_title. destruct (decide (EQUALS ∈ text)) as [Hin|Hno].
  - destruct (split_last EQUALS text Hin) as (prefix & t & -> & Htext & Ht). simpl.
    split_and!; [done | by exists prefix | done].
  - split_and!; [done | done | apply not_elem_of_nil].
Qed.

Lemma facet_title_spec_witness :
  EQUALS ∈ lit "IPEDS_Name=NJIT"
  ∧ ∃ prefix, lit "IPEDS_Name=NJIT" = prefix ++ EQUALS :: facet_title (lit "IPEDS_Name=NJIT").
Proof.
  assert (EQUALS ∈ lit "IPEDS_Name=NJIT") as Hin.
  { apply list_elem_of_In. vm_compute. tauto. }
  split; [exact Hin|].
  destruct (facet_title_spec (lit "IPEDS_Name=NJIT")) as (_ & Hprefix & _).
  exact (Hprefix Hin).
Defined.
